(** * WeatherApplication: date-change detection, authority and commits

    A shallow embedding of [src/applications/WeatherApplication.ts].

    The application object holds the current weather record and talks to
    three collaborators that live outside the file: the settings store
    ([moduleSettings]), the weather generator ([generate]) and the
    role query ([isClientGM]).  Every method is embedded as a function
    on an explicit state, producing the completion of the call, the state
    it leaves behind and the list of collaborator calls it made.

    Diagnostic output ([log], [console.log]) is not modelled. *)

From Stdlib Require Import ZArith List String Bool Lia DecimalString.
Import ListNotations.

(** ** JavaScript values of the time feed *)

(** A numeric field of [SimpleCalendar.DateData] as it arrives on the wire:
    missing, [null], or a number, which for a calendar reading is an
    integer. *)
Inductive Field : Type :=
| undefined
| null
| num (z : Z).

Definition Field_eqb (a b : Field) : bool :=
  match a, b with
  | undefined, undefined => true
  | null, null => true
  | num x, num y => Z.eqb x y
  | _, _ => false
  end.

(** [a !== b] on two fields. *)
Definition strict_ne (a b : Field) : bool := negb (Field_eqb a b).

(** [value !== undefined && value !== null] *)
Definition isDefined (value : Field) : bool :=
  strict_ne value undefined && strict_ne value null.

(** String conversion as performed by [+] with a string operand. *)
Definition Field_toString (a : Field) : string :=
  match a with
  | undefined => "undefined"
  | null => "null"
  | num z => NilZero.string_of_int (Z.to_int z)
  end.

Record DateDisplay : Type := {
  display_date : string;
  display_time : string
}.

(** The part of [SimpleCalendar.DateData] the application reads.  A partial
    reading may lack any of it: [display] and [weekdays] are [None] when the
    property is missing or [null]. *)
Record DateData : Type := {
  second : Field;
  minute : Field;
  day : Field;
  month : Field;
  year : Field;
  display : option DateDisplay;
  weekdays : option (list string);
  dayOfTheWeek : Field
}.

Definition isDateTimeValid (date : DateData) : bool :=
  if isDefined (second date) && isDefined (minute date) && isDefined (day date)
     && isDefined (month date) && isDefined (year date)
  then true
  else false.

(** [array[i]]: [None] stands for the [undefined] of an index out of range. *)
Definition js_index {A : Type} (l : list A) (i : Z) : option A :=
  if (i <? 0)%Z then None else nth_error l (Z.to_nat i).

(** [array[i]] for a field [i]: a missing or [null] index names the property
    ["undefined"] or ["null"], which an array does not have. *)
Definition js_index_by {A : Type} (l : list A) (i : Field) : option A :=
  match i with
  | num z => js_index l z
  | undefined => None
  | null => None
  end.

(** ** The weather record *)

(** A [WeatherData] object: the date it was generated for and the
    generator's payload, which the application never inspects. *)
Record WeatherData (Content : Type) : Type := {
  date : option DateData;
  content : Content
}.

Arguments date {Content} w.
Arguments content {Content} w.

Definition with_date {Content : Type} (w : WeatherData Content)
    (d : DateData) : WeatherData Content :=
  {| date := Some d; content := content w |}.

(** ** Collaborators *)

(** Modules imported by the application and absent from it: the climate
    enumerations and their selection tables ([climateData]), the generator
    ([weatherGenerator]), the methods of [WeatherData] and the base class. *)
Inductive Error : Type :=
| TypeError
| StoreWriteFailure
| MethodError.

Inductive Completion (A : Type) : Type :=
| Normal (a : A)
| Throw (e : Error).

Arguments Normal {A} a.
Arguments Throw {A} e.

Record Externals : Type := {
  Content : Type;
  Climate : Type;
  Humidity : Type;
  Season : Type;
  Selections : Type;
  BaseData : Type;
  Climate_Cold : Climate;
  Humidity_Modest : Humidity;
  Season_Spring : Season;
  (** [Number(element.value) as Climate] and its two siblings *)
  Number_as_Climate : string -> Climate;
  Number_as_Humidity : string -> Humidity;
  Number_as_Season : string -> Season;
  generate : Climate -> Humidity -> Season ->
             option (WeatherData Content) -> WeatherData Content;
  getTemperature : WeatherData Content -> bool -> Completion string;
  getDescription : WeatherData Content -> Completion string;
  biomeSelections : Selections;
  seasonSelections : Selections;
  humiditySelections : Selections;
  climateSelections : Selections;
  super_getData : BaseData
}.

Record WindowPosition : Type := {
  left : Z;
  top : Z
}.

(** What the host supplies afresh on every call: the role of the client,
    the settings and form controls the methods read, and whether the store
    takes a write. *)
Record Host : Type := {
  isClientGM : bool;
  useCelsius : bool;
  dialogDisplay : bool;
  climate_selection : option string;
  humidity_selection : option string;
  season_selection : option string;
  storeAccepts : bool
}.

(** ** Calls, state and completions *)

(** A promise as its settled result, which is all [await] looks at. *)
Inductive Promise : Type :=
| Fulfilled
| Rejected.

(** The outcome of running a method: how it completed, the state it left
    and the collaborator calls it made, oldest first. *)
Record Run (S E A : Type) : Type := {
  outcome : Completion A;
  final : S;
  events : list E
}.

Arguments outcome {S E A} r.
Arguments final {S E A} r.
Arguments events {S E A} r.

Definition Eff (S E A : Type) : Type := S -> Run S E A.

Definition ret {S E A : Type} (a : A) : Eff S E A :=
  fun s => {| outcome := Normal a; final := s; events := [] |}.

Definition bind {S E A B : Type} (m : Eff S E A) (k : A -> Eff S E B)
    : Eff S E B :=
  fun s =>
    let r := m s in
    match outcome r with
    | Normal a =>
        let r' := k a (final r) in
        {| outcome := outcome r'; final := final r';
           events := events r ++ events r' |}
    | Throw e => {| outcome := Throw e; final := final r; events := events r |}
    end.

Definition throw {S E A : Type} (e : Error) : Eff S E A :=
  fun s => {| outcome := Throw e; final := s; events := [] |}.

Definition emit {S E : Type} (ev : E) : Eff S E unit :=
  fun s => {| outcome := Normal tt; final := s; events := [ev] |}.

Definition gets {S E A : Type} (f : S -> A) : Eff S E A :=
  fun s => {| outcome := Normal (f s); final := s; events := [] |}.

Definition modify {S E : Type} (f : S -> S) : Eff S E unit :=
  fun s => {| outcome := Normal tt; final := f s; events := [] |}.

Declare Scope eff_scope.
Delimit Scope eff_scope with eff.

Notation "x <- m ;; k" := (bind m (fun x => k))
  (at level 100, m at next level, right associativity) : eff_scope.
Notation "m ;; k" := (bind m (fun _ => k))
  (at level 100, right associativity) : eff_scope.

Section Application.

Variable X : Externals.

Local Abbreviation Weather := (WeatherData (Content X)).

(** Calls that leave the application. *)
Inductive Event : Type :=
| EGenerate (climate : Climate X) (humidity : Humidity X)
            (season : Season X) (seed : option Weather)
| EWrite (value : option Weather)
| ERender.

(** The fields of the application object, and the [lastWeatherData] entry
    of the settings store. *)
Record State : Type := {
  currentWeather : option Weather;
  weatherPanelOpen : bool;
  windowPosition : WindowPosition;
  lastWeatherData : option Weather
}.

Definition set_currentWeather (v : option Weather) (s : State) : State :=
  {| currentWeather := v;
     weatherPanelOpen := weatherPanelOpen s;
     windowPosition := windowPosition s;
     lastWeatherData := lastWeatherData s |}.

Definition set_lastWeatherData (v : option Weather) (s : State) : State :=
  {| currentWeather := currentWeather s;
     weatherPanelOpen := weatherPanelOpen s;
     windowPosition := windowPosition s;
     lastWeatherData := v |}.

Local Abbreviation M := (Eff State Event).

Open Scope eff_scope.

(** [this.render()] *)
Definition render : M unit := emit ERender.

(** [generate(climate, humidity, season, seed)] *)
Definition call_generate (climate : Climate X) (humidity : Humidity X)
    (season : Season X) (seed : option Weather) : M Weather :=
  emit (EGenerate climate humidity season seed) ;;
  ret (generate X climate humidity season seed).

(** Modelled from the spec: [moduleSettings.set(SettingKeys.lastWeatherData,
    value)], whose module is not part of the file.  The store keeps its own
    copy of the value and either takes the write or fails it; [updateDateTime]
    awaits the call, so it returns a promise. *)
Definition moduleSettings_set_lastWeatherData (h : Host)
    (value : option Weather) : M Promise :=
  emit (EWrite value) ;;
  if storeAccepts h
  then modify (set_lastWeatherData value) ;; ret Fulfilled
  else ret Rejected.

Definition await (p : Promise) : M unit :=
  match p with
  | Fulfilled => ret tt
  | Rejected => throw StoreWriteFailure
  end.

(** [this.currentWeather.date = currentDate]; a [TypeError] when there is no
    current weather to assign into. *)
Definition assign_currentWeather_date (currentDate : DateData) : M unit :=
  cw <- gets currentWeather ;;
  match cw with
  | Some w => modify (set_currentWeather (Some (with_date w currentDate)))
  | None => throw TypeError
  end.

(** ** The methods *)

(** [this.currentWeather?.date] *)
Definition currentWeather_date (s : State) : option DateData :=
  match currentWeather s with
  | Some w => date w
  | None => None
  end.

(** [this.currentWeather?.date?.display] *)
Definition currentWeather_date_display (s : State) : option DateDisplay :=
  match currentWeather_date s with
  | Some d => display d
  | None => None
  end.

Definition hasDateChanged (s : State) (currentDate : option DateData) : bool :=
  let previous := currentWeather_date s in
  match previous, currentDate with
  | None, Some _ => true
  | Some _, None => true
  | None, None => false
  | Some p, Some c =>
      if isDateTimeValid c then
        if strict_ne (day c) (day p)
           || strict_ne (month c) (month p)
           || strict_ne (year c) (year p)
        then true
        else false
      else false
  end.

Definition updateDateTime (h : Host) (currentDate : option DateData) : M unit :=
  match currentDate with
  | None => ret tt
  | Some d =>
      changed <- gets (fun s => hasDateChanged s currentDate) ;;
      (if changed then
         if isClientGM h then
           assign_currentWeather_date d ;;
           cw <- gets currentWeather ;;
           p <- moduleSettings_set_lastWeatherData h cw ;;
           await p
         else ret tt
       else assign_currentWeather_date d) ;;
      render
  end.

Definition setWeather (h : Host) : M unit :=
  weatherData <- gets lastWeatherData ;;
  (match weatherData with
   | Some _ => modify (set_currentWeather weatherData)
   | None =>
       if isClientGM h then
         w <- call_generate (Climate_Cold X) (Humidity_Modest X)
                (Season_Spring X) None ;;
         modify (set_currentWeather (Some w)) ;;
         cw <- gets currentWeather ;;
         _ <- moduleSettings_set_lastWeatherData h cw ;;
         ret tt
       else ret tt
   end) ;;
  render.

Definition getSeason (h : Host) : option (Season X) :=
  match season_selection h with
  | Some value => Some (Number_as_Season X value)
  | None => None
  end.

Definition getClimate (h : Host) : option (Climate X) :=
  match climate_selection h with
  | Some value => Some (Number_as_Climate X value)
  | None => None
  end.

Definition getHumidity (h : Host) : option (Humidity X) :=
  match humidity_selection h with
  | Some value => Some (Number_as_Humidity X value)
  | None => None
  end.

Definition onWeatherRegenerateClick (h : Host) : M unit :=
  let humidity := getHumidity h in
  let climate := getClimate h in
  let season := getSeason h in
  match humidity, climate, season with
  | Some hu, Some cl, Some se =>
      seed <- gets currentWeather ;;
      w <- call_generate cl hu se seed ;;
      modify (set_currentWeather (Some w)) ;;
      cw <- gets currentWeather ;;
      _ <- moduleSettings_set_lastWeatherData h cw ;;
      render
  | _, _, _ => ret tt
  end.

(** A method of a collaborator that may throw. *)
Definition lift {A : Type} (c : Completion A) : M A :=
  match c with
  | Normal a => ret a
  | Throw e => throw e
  end.

(** The object handed to the template. *)
Record TemplateData : Type := {
  base : BaseData X;
  isGM : bool;
  displayDate : string;
  formattedDate : string;
  formattedTime : string;
  weekday : option string;
  currentTemperature : string;
  currentDescription : string;
  data_weatherPanelOpen : bool;
  data_biomeSelections : Selections X;
  data_seasonSelections : Selections X;
  data_humiditySelections : Selections X;
  data_climateSelections : Selections X;
  hideWeather : bool;
  data_windowPosition : WindowPosition
}.

Definition getData (h : Host) : M TemplateData :=
  s <- gets (fun s => s) ;;
  let displayDate_ :=
    match currentWeather_date_display s with
    | Some dd => display_date dd
    | None => EmptyString
    end in
  let formattedDate_ :=
    match currentWeather_date s with
    | Some d =>
        (Field_toString (day d) ++ "/" ++ Field_toString (month d)
           ++ "/" ++ Field_toString (year d))%string
    | None => EmptyString
    end in
  let formattedTime_ :=
    match currentWeather_date_display s with
    | Some dd => display_time dd
    | None => EmptyString
    end in
  weekday_ <-
    match currentWeather_date s with
    | Some d =>
        match weekdays d with
        | Some names => ret (js_index_by names (dayOfTheWeek d))
        | None => throw TypeError
        end
    | None => ret (Some EmptyString)
    end ;;
  currentTemperature_ <-
    match currentWeather s with
    | Some w => lift (getTemperature X w (useCelsius h))
    | None => ret EmptyString
    end ;;
  currentDescription_ <-
    match currentWeather s with
    | Some w => lift (getDescription X w)
    | None => ret EmptyString
    end ;;
  ret {| base := super_getData X;
         isGM := isClientGM h;
         displayDate := displayDate_;
         formattedDate := formattedDate_;
         formattedTime := formattedTime_;
         weekday := weekday_;
         currentTemperature := currentTemperature_;
         currentDescription := currentDescription_;
         data_weatherPanelOpen := weatherPanelOpen s;
         data_biomeSelections := biomeSelections X;
         data_seasonSelections := seasonSelections X;
         data_humiditySelections := humiditySelections X;
         data_climateSelections := climateSelections X;
         hideWeather := if isClientGM h || dialogDisplay h then false else true;
         data_windowPosition := windowPosition s |}.

End Application.

Arguments EGenerate {X} climate humidity season seed.
Arguments EWrite {X} value.
Arguments ERender {X}.
Arguments currentWeather {X} s.
Arguments weatherPanelOpen {X} s.
Arguments windowPosition {X} s.
Arguments lastWeatherData {X} s.
Arguments set_currentWeather {X} v s.
Arguments set_lastWeatherData {X} v s.
Arguments currentWeather_date {X} s.
Arguments hasDateChanged {X} s currentDate.
Arguments updateDateTime {X} h currentDate _.
Arguments render {X} _.
Arguments call_generate {X} climate humidity season seed _.
Arguments moduleSettings_set_lastWeatherData {X} h value _.
Arguments await {X} p _.
Arguments assign_currentWeather_date {X} currentDate _.
Arguments currentWeather_date_display {X} s.
Arguments setWeather {X} h _.
Arguments onWeatherRegenerateClick {X} h _.
Arguments getData {X} h _.
Arguments displayDate {X} t.
Arguments formattedDate {X} t.
Arguments formattedTime {X} t.
Arguments weekday {X} t.
Arguments currentTemperature {X} t.
Arguments currentDescription {X} t.
Arguments data_biomeSelections {X} t.
Arguments data_seasonSelections {X} t.
Arguments data_humiditySelections {X} t.
Arguments data_climateSelections {X} t.
Arguments data_windowPosition {X} t.

(** ** Reading a list of calls *)

Definition isWrite {X : Externals} (ev : Event X) : bool :=
  match ev with
  | EWrite _ => true
  | _ => false
  end.

Definition isGenerate {X : Externals} (ev : Event X) : bool :=
  match ev with
  | EGenerate _ _ _ _ => true
  | _ => false
  end.

Definition writeCount {X : Externals} (l : list (Event X)) : nat :=
  List.length (filter isWrite l).

Definition generateCount {X : Externals} (l : list (Event X)) : nat :=
  List.length (filter isGenerate l).

(** ** A concrete world

    One choice of collaborators and a few states, dates and hosts on which
    the methods can be run. *)
Module Sample.

Definition ext : Externals := {|
  Content := string;
  Climate := Z;
  Humidity := Z;
  Season := Z;
  Selections := list string;
  BaseData := unit;
  Climate_Cold := 0%Z;
  Humidity_Modest := 1%Z;
  Season_Spring := 0%Z;
  Number_as_Climate := fun value => Z.of_nat (String.length value);
  Number_as_Humidity := fun value => Z.of_nat (String.length value);
  Number_as_Season := fun value => Z.of_nat (String.length value);
  generate := fun _ _ _ seed =>
    {| date := match seed with Some w => date w | None => None end;
       content := "fresh"%string |};
  getTemperature := fun _ _ => Throw MethodError;
  getDescription := fun _ => Throw MethodError;
  biomeSelections := ["forest"%string];
  seasonSelections := ["spring"%string];
  humiditySelections := ["modest"%string];
  climateSelections := ["cold"%string];
  super_getData := tt
|}.

Definition on (d mo y mi se : Z) : DateData := {|
  second := num se;
  minute := num mi;
  day := num d;
  month := num mo;
  year := num y;
  display := None;
  weekdays := Some ["Moonday"%string; "Tideday"%string];
  dayOfTheWeek := num 0
|}.

(** 1/1/1000 and the day after. *)
Definition day1 : DateData := on 1 1 1000 0 0.
Definition day2 : DateData := on 2 1 1000 0 0.

(** A reading with nothing filled in. *)
Definition partial : DateData := {|
  second := undefined;
  minute := undefined;
  day := undefined;
  month := null;
  year := undefined;
  display := None;
  weekdays := None;
  dayOfTheWeek := undefined
|}.

Definition record1 : WeatherData (Content ext) :=
  {| date := Some day1; content := "sunny"%string |}.

Definition holding (cw stored : option (WeatherData (Content ext)))
    : State ext := {|
  currentWeather := cw;
  weatherPanelOpen := false;
  windowPosition := {| left := 100; top := 100 |};
  lastWeatherData := stored
|}.

(** A client showing [record1], in step with the store. *)
Definition settled : State ext := holding (Some record1) (Some record1).

(** A client that has loaded nothing, against an empty store. *)
Definition blank : State ext := holding None None.

Definition host (gm accepts : bool) (selection : option string) : Host := {|
  isClientGM := gm;
  useCelsius := true;
  dialogDisplay := true;
  climate_selection := selection;
  humidity_selection := Some "1"%string;
  season_selection := Some "2"%string;
  storeAccepts := accepts
|}.

Definition gm : Host := host true true (Some "0"%string).
Definition player : Host := host false true (Some "0"%string).
Definition gm_store_down : Host := host true false (Some "0"%string).
Definition gm_no_climate : Host := host true true None.

End Sample.

(** * The rest of the application

    The constructor, the window position, the panel toggle, the selection
    handlers and the wiring of the handlers to the page.  The handlers'
    [event.preventDefault()] only concerns the browser's own reaction to the
    click and is left out. *)

(** ** The paths of a time update *)

Section UpdatePaths.

Context {X : Externals}.

(** The ways through [updateDateTime], each with the run it produces. *)
Inductive UpdatePath (h : Host) (s : State X) (currentDate : option DateData)
    : Run (State X) (Event X) unit -> Prop :=
| path_absent :
    currentDate = None ->
    UpdatePath h s currentDate
      {| outcome := Normal tt; final := s; events := [] |}
| path_same_date incoming w :
    currentDate = Some incoming ->
    hasDateChanged s currentDate = false ->
    currentWeather s = Some w ->
    UpdatePath h s currentDate
      {| outcome := Normal tt;
         final := set_currentWeather (Some (with_date w incoming)) s;
         events := [ERender] |}
| path_player incoming :
    currentDate = Some incoming ->
    hasDateChanged s currentDate = true ->
    isClientGM h = false ->
    UpdatePath h s currentDate
      {| outcome := Normal tt; final := s; events := [ERender] |}
| path_gm_missing incoming :
    currentDate = Some incoming ->
    hasDateChanged s currentDate = true ->
    isClientGM h = true ->
    currentWeather s = None ->
    UpdatePath h s currentDate
      {| outcome := Throw TypeError; final := s; events := [] |}
| path_gm_written incoming w :
    currentDate = Some incoming ->
    hasDateChanged s currentDate = true ->
    isClientGM h = true ->
    currentWeather s = Some w ->
    storeAccepts h = true ->
    UpdatePath h s currentDate
      {| outcome := Normal tt;
         final := set_lastWeatherData (Some (with_date w incoming))
                    (set_currentWeather (Some (with_date w incoming)) s);
         events := [EWrite (Some (with_date w incoming)); ERender] |}
| path_gm_refused incoming w :
    currentDate = Some incoming ->
    hasDateChanged s currentDate = true ->
    isClientGM h = true ->
    currentWeather s = Some w ->
    storeAccepts h = false ->
    UpdatePath h s currentDate
      {| outcome := Throw StoreWriteFailure;
         final := set_currentWeather (Some (with_date w incoming)) s;
         events := [EWrite (Some (with_date w incoming))] |}.

End UpdatePaths.

(** ** The page *)

(** [n + 'px'] and [String(n)] for an integer [n]. *)
Definition Number_toString (z : Z) : string :=
  NilZero.string_of_int (Z.to_int z).

(** The element with id [sweath-container]: the two inline style properties
    the application assigns, and whether its class list holds
    [show-weather]. *)
Record WindowElement : Type := {
  style_top : string;
  style_left : string;
  show_weather : bool
}.

(** A [<select>]: the values of its options in document order and the value
    it reads as. *)
Record SelectElement : Type := {
  select_options : list string;
  select_value : string
}.

(** Assigning [element.value], as the platform does it: the first option
    with that value becomes the selected one; when there is none, nothing is
    selected and the element reads as the empty string. *)
Definition assign_value (v : string) (e : SelectElement) : SelectElement :=
  {| select_options := select_options e;
     select_value :=
       if existsb (String.eqb v) (select_options e) then v else EmptyString |}.

(** jQuery's [.val(v)] on the elements a selector found: a missing or [null]
    argument counts as the empty string, a number is turned into a string
    (done by the caller here), and an empty selection is left alone. *)
Definition jq_val (v : option string) (e : option SelectElement)
    : option SelectElement :=
  match e with
  | Some el =>
      Some (assign_value (match v with Some x => x | None => EmptyString end) el)
  | None => None
  end.

Record Page : Type := {
  window_element : option WindowElement;
  (** [#date-display] and whether its class list holds [altFormat] *)
  date_display_altFormat : option bool;
  climate_select : option SelectElement;
  humidity_select : option SelectElement;
  season_select : option SelectElement;
  biome_select : option SelectElement
}.

(** The host as the methods of the first part see it, its three selections
    read off the page. *)
Definition host_on (h : Host) (p : Page) : Host :=
  {| isClientGM := isClientGM h;
     useCelsius := useCelsius h;
     dialogDisplay := dialogDisplay h;
     climate_selection := option_map select_value (climate_select p);
     humidity_selection := option_map select_value (humidity_select p);
     season_selection := option_map select_value (season_select p);
     storeAccepts := storeAccepts h |}.

(** The names under which the handlers are bound. *)
Inductive Handler : Type :=
| ToggleAltFormat
| OnMoveHandleMouseDown
| OnWeatherToggleClick
| OnWeatherRegenerateClick
| OnBiomeSelectChange
| OnClimateSelectChange
| OnHumiditySelectChange.

Section Shell.

Variable X : Externals.

(** An entry of [biomeMappings]. *)
Record BiomeMapping : Type := {
  mapping_climate : Climate X;
  mapping_humidity : Humidity X
}.

(** What else the file imports and does not define: [String] on the three
    enumerations and the [biomeMappings] table, read as a lookup by key. *)
Record Tables : Type := {
  String_of_Climate : Climate X -> string;
  String_of_Humidity : Humidity X -> string;
  String_of_Season : Season X -> string;
  biomeMappings : string -> option BiomeMapping
}.

Variable T : Tables.

(** The settings besides [lastWeatherData] that the file reads or writes. *)
Record Settings : Type := {
  saved_windowPosition : option WindowPosition;
  saved_climate : option (Climate X);
  saved_humidity : option (Humidity X);
  saved_season : option (Season X);
  saved_biome : option string
}.

Record World : Type := {
  app : State X;
  settings : Settings;
  page : Page
}.

Definition on_app (f : State X -> State X) (w : World) : World :=
  {| app := f (app w); settings := settings w; page := page w |}.

Definition on_settings (f : Settings -> Settings) (w : World) : World :=
  {| app := app w; settings := f (settings w); page := page w |}.

Definition on_page (f : Page -> Page) (w : World) : World :=
  {| app := app w; settings := settings w; page := f (page w) |}.

(** Calls that leave the application, now with those of the handlers. *)
Inductive ShellEvent : Type :=
| SApp (e : Event X)
| SRenderForce
| SSetWindowPosition (p : WindowPosition)
| SSetClimate (c : Climate X)
| SSetHumidity (hu : Humidity X)
| SSetBiome (b : string)
| SDragStart
| SOn (selector : string) (event : string) (k : Handler)
| SSuperActivateListeners.

Local Abbreviation MW := (Eff World ShellEvent).

Open Scope eff_scope.

(** A method of the first part, run inside the world. *)
Definition in_app {A : Type} (h : Host)
    (m : Host -> Eff (State X) (Event X) A) : MW A :=
  fun w =>
    let r := m (host_on h (page w)) (app w) in
    {| outcome := outcome r;
       final := on_app (fun _ => final r) w;
       events := map SApp (events r) |}.

(** Modelled from the spec: [moduleSettings.set(key, value)] for the other
    keys, under the same contract as for [lastWeatherData]; no caller in the
    file awaits these. *)
Definition moduleSettings_set (h : Host) (call : ShellEvent)
    (save : Settings -> Settings) : MW Promise :=
  emit call ;;
  if storeAccepts h
  then modify (on_settings save) ;; ret Fulfilled
  else ret Rejected.

Definition save_windowPosition (p : WindowPosition) (st : Settings)
    : Settings :=
  {| saved_windowPosition := Some p;
     saved_climate := saved_climate st;
     saved_humidity := saved_humidity st;
     saved_season := saved_season st;
     saved_biome := saved_biome st |}.

Definition save_climate (c : Climate X) (st : Settings) : Settings :=
  {| saved_windowPosition := saved_windowPosition st;
     saved_climate := Some c;
     saved_humidity := saved_humidity st;
     saved_season := saved_season st;
     saved_biome := saved_biome st |}.

Definition save_humidity (hu : Humidity X) (st : Settings) : Settings :=
  {| saved_windowPosition := saved_windowPosition st;
     saved_climate := saved_climate st;
     saved_humidity := Some hu;
     saved_season := saved_season st;
     saved_biome := saved_biome st |}.

Definition save_biome (b : string) (st : Settings) : Settings :=
  {| saved_windowPosition := saved_windowPosition st;
     saved_climate := saved_climate st;
     saved_humidity := saved_humidity st;
     saved_season := saved_season st;
     saved_biome := Some b |}.

Definition set_this_windowPosition (p : WindowPosition) (s : State X)
    : State X :=
  {| currentWeather := currentWeather s;
     weatherPanelOpen := weatherPanelOpen s;
     windowPosition := p;
     lastWeatherData := lastWeatherData s |}.

Definition set_weatherPanelOpen (b : bool) (s : State X) : State X :=
  {| currentWeather := currentWeather s;
     weatherPanelOpen := b;
     windowPosition := windowPosition s;
     lastWeatherData := lastWeatherData s |}.

Definition set_window_element (e : option WindowElement) (p : Page) : Page :=
  {| window_element := e;
     date_display_altFormat := date_display_altFormat p;
     climate_select := climate_select p;
     humidity_select := humidity_select p;
     season_select := season_select p;
     biome_select := biome_select p |}.

Definition set_date_display_altFormat (b : option bool) (p : Page) : Page :=
  {| window_element := window_element p;
     date_display_altFormat := b;
     climate_select := climate_select p;
     humidity_select := humidity_select p;
     season_select := season_select p;
     biome_select := biome_select p |}.

Definition set_climate_select (e : option SelectElement) (p : Page) : Page :=
  {| window_element := window_element p;
     date_display_altFormat := date_display_altFormat p;
     climate_select := e;
     humidity_select := humidity_select p;
     season_select := season_select p;
     biome_select := biome_select p |}.

Definition set_humidity_select (e : option SelectElement) (p : Page) : Page :=
  {| window_element := window_element p;
     date_display_altFormat := date_display_altFormat p;
     climate_select := climate_select p;
     humidity_select := e;
     season_select := season_select p;
     biome_select := biome_select p |}.

Definition set_season_select (e : option SelectElement) (p : Page) : Page :=
  {| window_element := window_element p;
     date_display_altFormat := date_display_altFormat p;
     climate_select := climate_select p;
     humidity_select := humidity_select p;
     season_select := e;
     biome_select := biome_select p |}.

Definition set_biome_select (e : option SelectElement) (p : Page) : Page :=
  {| window_element := window_element p;
     date_display_altFormat := date_display_altFormat p;
     climate_select := climate_select p;
     humidity_select := humidity_select p;
     season_select := season_select p;
     biome_select := e |}.

(** ** The window *)

Definition place (newPosition : WindowPosition) (e : WindowElement)
    : WindowElement :=
  {| style_top := Number_toString (top newPosition) ++ "px";
     style_left := Number_toString (left newPosition) ++ "px";
     show_weather := show_weather e |}.

Definition setWindowPosition (h : Host) (newPosition : WindowPosition)
    : MW unit :=
  element <- gets (fun w => window_element (page w)) ;;
  modify (on_app (set_this_windowPosition newPosition)) ;;
  (match element with
   | Some e => modify (on_page (set_window_element (Some (place newPosition e))))
   | None => ret tt
   end) ;;
  let saved := {| left := left newPosition; top := top newPosition |} in
  _ <- moduleSettings_set h (SSetWindowPosition saved)
         (save_windowPosition saved) ;;
  ret tt.

(** The object as [super()] and the field initialisers leave it: nothing
    loaded, [windowPosition] still to be assigned. *)
Definition fresh (s : State X) : State X :=
  {| currentWeather := None;
     weatherPanelOpen := weatherPanelOpen s;
     windowPosition := windowPosition s;
     lastWeatherData := lastWeatherData s |}.

Definition constructor (h : Host) : MW unit :=
  modify (on_app fresh) ;;
  modify (on_app (set_weatherPanelOpen false)) ;;
  saved <- gets (fun w => saved_windowPosition (settings w)) ;;
  setWindowPosition h
    (match saved with
     | Some p => p
     | None => {| left := 100; top := 100 |}
     end) ;;
  in_app h (@setWeather X) ;;
  emit SRenderForce.

Definition onMoveHandleMouseDown : MW unit :=
  element <- gets (fun w => window_element (page w)) ;;
  match element with
  | Some _ => emit SDragStart
  | None => ret tt
  end.

(** The callback handed to the drag handler. *)
Definition onMoveHandleMouseDown_callback (h : Host)
    (position : WindowPosition) : MW unit :=
  setWindowPosition h position.

(** ** The panel *)

Definition toggle_show_weather (e : WindowElement) : WindowElement :=
  {| style_top := style_top e;
     style_left := style_left e;
     show_weather := negb (show_weather e) |}.

Definition onWeatherToggleClick : MW unit :=
  open <- gets (fun w => weatherPanelOpen (app w)) ;;
  modify (on_app (set_weatherPanelOpen (negb open))) ;;
  element <- gets (fun w => window_element (page w)) ;;
  match element with
  | Some e =>
      modify (on_page (set_window_element (Some (toggle_show_weather e))))
  | None => ret tt
  end.

(** ** The selections *)

(** [target] is [event.originalEvent?.target], given by the value of the
    element when there is one. *)
Definition onClimateSelectChange (h : Host) (target : option string)
    : MW unit :=
  match target with
  | None => throw TypeError
  | Some value =>
      let climate := Number_as_Climate X value in
      _ <- moduleSettings_set h (SSetClimate climate) (save_climate climate) ;;
      ret tt
  end.

Definition onHumiditySelectChange (h : Host) (target : option string)
    : MW unit :=
  match target with
  | None => throw TypeError
  | Some value =>
      let humidity := Number_as_Humidity X value in
      _ <- moduleSettings_set h (SSetHumidity humidity)
             (save_humidity humidity) ;;
      ret tt
  end.

Definition onBiomeSelectChange (h : Host) (target : option string)
    : MW unit :=
  match target with
  | None => throw TypeError
  | Some value =>
      match biomeMappings T value with
      | Some biomeMapping =>
          _ <- moduleSettings_set h (SSetBiome value) (save_biome value) ;;
          climate <- gets (fun w => climate_select (page w)) ;;
          (match climate with
           | Some e =>
               modify (on_page (set_climate_select
                 (Some (assign_value
                          (String_of_Climate T (mapping_climate biomeMapping))
                          e))))
           | None => ret tt
           end) ;;
          humidity <- gets (fun w => humidity_select (page w)) ;;
          match humidity with
          | Some e =>
              modify (on_page (set_humidity_select
                (Some (assign_value
                         (String_of_Humidity T (mapping_humidity biomeMapping))
                         e))))
          | None => ret tt
          end
      | None => ret tt
      end
  end.

(** ** Wiring *)

(** [html.find(selector).val(moduleSettings.get(key))] for the four
    selections. *)
Definition show_saved_selections (w : World) : World :=
  let st := settings w in
  on_page (fun p =>
    set_biome_select (jq_val (saved_biome st) (biome_select p))
      (set_season_select
         (jq_val (option_map (String_of_Season T) (saved_season st))
            (season_select p))
         (set_humidity_select
            (jq_val (option_map (String_of_Humidity T) (saved_humidity st))
               (humidity_select p))
            (set_climate_select
               (jq_val (option_map (String_of_Climate T) (saved_climate st))
                  (climate_select p))
               p)))) w.

Definition activateListeners (h : Host) : MW unit :=
  emit (SOn "#date-display" "mousedown" ToggleAltFormat) ;;
  emit (SOn "#sweath-window-move-handle" "mousedown" OnMoveHandleMouseDown) ;;
  emit (SOn "#weather-toggle" "click" OnWeatherToggleClick) ;;
  (if isClientGM h then
     modify show_saved_selections ;;
     emit (SOn "#sweath-weather-regenerate" "click" OnWeatherRegenerateClick) ;;
     emit (SOn "#biome-selection" "change" OnBiomeSelectChange) ;;
     emit (SOn "#climate-selection" "change" OnClimateSelectChange) ;;
     emit (SOn "#humidity-selection" "change" OnHumiditySelectChange)
   else ret tt) ;;
  emit SSuperActivateListeners.

(** [event.currentTarget.classList.toggle('altFormat')] on [#date-display]. *)
Definition toggleAltFormat : MW unit :=
  modify (on_page (fun p =>
    set_date_display_altFormat
      (option_map negb (date_display_altFormat p)) p)).

(** What runs under each name; [target] is the event's
    [originalEvent?.target], for the handlers that read it. *)
Definition handle (h : Host) (k : Handler) (target : option string)
    : MW unit :=
  match k with
  | ToggleAltFormat => toggleAltFormat
  | OnMoveHandleMouseDown => onMoveHandleMouseDown
  | OnWeatherToggleClick => onWeatherToggleClick
  | OnWeatherRegenerateClick => in_app h (@onWeatherRegenerateClick X)
  | OnBiomeSelectChange => onBiomeSelectChange h target
  | OnClimateSelectChange => onClimateSelectChange h target
  | OnHumiditySelectChange => onHumiditySelectChange h target
  end.

(** The handlers a list of calls has bound to a selector and an event. *)
Fixpoint bound (calls : list ShellEvent) (selector event : string)
    : list Handler :=
  match calls with
  | [] => []
  | SOn sel ev k :: rest =>
      if String.eqb sel selector && String.eqb ev event
      then k :: bound rest selector event
      else bound rest selector event
  | _ :: rest => bound rest selector event
  end.

(** An event reaching the page: the handlers bound to it run in the order
    of binding, and one that throws keeps the later ones from running. *)
Fixpoint dispatch (h : Host) (handlers : list Handler)
    (target : option string) : MW unit :=
  match handlers with
  | [] => ret tt
  | k :: rest => handle h k target ;; dispatch h rest target
  end.

End Shell.

Arguments data_weatherPanelOpen {X} t.
Arguments isGM {X} t.
Arguments hideWeather {X} t.
Arguments mapping_climate {X} b.
Arguments mapping_humidity {X} b.
Arguments String_of_Climate {X} t _.
Arguments String_of_Humidity {X} t _.
Arguments String_of_Season {X} t _.
Arguments biomeMappings {X} t _.
Arguments saved_windowPosition {X} s.
Arguments saved_climate {X} s.
Arguments saved_humidity {X} s.
Arguments saved_season {X} s.
Arguments saved_biome {X} s.
Arguments app {X} w.
Arguments settings {X} w.
Arguments page {X} w.
Arguments on_app {X} f w.
Arguments on_settings {X} f w.
Arguments on_page {X} f w.
Arguments SApp {X} e.
Arguments SRenderForce {X}.
Arguments SSetWindowPosition {X} p.
Arguments SSetClimate {X} c.
Arguments SSetHumidity {X} hu.
Arguments SSetBiome {X} b.
Arguments SDragStart {X}.
Arguments SOn {X} selector event k.
Arguments SSuperActivateListeners {X}.
Arguments in_app {X A} h m _.
Arguments moduleSettings_set {X} h call save _.
Arguments save_windowPosition {X} p st.
Arguments save_climate {X} c st.
Arguments save_humidity {X} hu st.
Arguments save_biome {X} b st.
Arguments set_this_windowPosition {X} p s.
Arguments set_weatherPanelOpen {X} b s.
Arguments setWindowPosition {X} h newPosition _.
Arguments fresh {X} s.
Arguments constructor {X} h _.
Arguments onMoveHandleMouseDown {X} _.
Arguments onMoveHandleMouseDown_callback {X} h position _.
Arguments onWeatherToggleClick {X} _.
Arguments onClimateSelectChange {X} h target _.
Arguments onHumiditySelectChange {X} h target _.
Arguments onBiomeSelectChange {X} T h target _.
Arguments show_saved_selections {X} T w.
Arguments activateListeners {X} T h _.
Arguments toggleAltFormat {X} _.
Arguments handle {X} T h k target _.
Arguments bound {X} calls selector event.
Arguments dispatch {X} T h handlers target _.

(** The world once the object and the element have taken a position. *)
Definition positioned {X : Externals} (p : WindowPosition) (w : World X)
    : World X :=
  let w1 := on_app (set_this_windowPosition p) w in
  match window_element (page w) with
  | Some e => on_page (set_window_element (Some (place p e))) w1
  | None => w1
  end.

(** The position a new instance starts from. *)
Definition starting_position {X : Externals} (w : World X) : WindowPosition :=
  match saved_windowPosition (settings w) with
  | Some p => p
  | None => {| left := 100; top := 100 |}
  end.

(** A call that touches what the clients share: the generator, the stored
    weather, or one of the saved selections. *)
Definition isSharedCall {X : Externals} (ev : ShellEvent X) : bool :=
  match ev with
  | SApp (EGenerate _ _ _ _) => true
  | SApp (EWrite _) => true
  | SSetClimate _ => true
  | SSetHumidity _ => true
  | SSetBiome _ => true
  | _ => false
  end.

(** A run from [w] to [w'] with calls [l] that left alone what the clients
    share: the weather in memory and in the store, and the saved climate,
    humidity and biome. *)
Definition unshared {X : Externals} (w w' : World X)
    (l : list (ShellEvent X)) : Prop :=
  (forall ev, In ev l -> isSharedCall ev = false)
  /\ currentWeather (app w') = currentWeather (app w)
  /\ lastWeatherData (app w') = lastWeatherData (app w)
  /\ saved_climate (settings w') = saved_climate (settings w)
  /\ saved_humidity (settings w') = saved_humidity (settings w)
  /\ saved_biome (settings w') = saved_biome (settings w).

(** The world after a click on the panel toggle. *)
Definition toggled {X : Externals} (w : World X) : World X :=
  let w1 :=
    on_app (set_weatherPanelOpen (negb (weatherPanelOpen (app w)))) w in
  match window_element (page w) with
  | Some e => on_page (set_window_element (Some (toggle_show_weather e))) w1
  | None => w1
  end.

(** ** A concrete page *)

Module Demo.

(** Climates, humidities and seasons are numbered, and the selects carry the
    numbers in decimal. *)
Definition digit (value : string) : Z :=
  if String.eqb value "0" then 0
  else if String.eqb value "1" then 1
  else if String.eqb value "2" then 2
  else if String.eqb value "3" then 3
  else (-1).

Definition ext : Externals := {|
  Content := string;
  Climate := Z;
  Humidity := Z;
  Season := Z;
  Selections := list string;
  BaseData := unit;
  Climate_Cold := 0%Z;
  Humidity_Modest := 1%Z;
  Season_Spring := 0%Z;
  Number_as_Climate := digit;
  Number_as_Humidity := digit;
  Number_as_Season := digit;
  generate := fun climate humidity season seed =>
    {| date := match seed with Some w => date w | None => None end;
       content := (Number_toString climate ++ "-" ++ Number_toString humidity
                     ++ "-" ++ Number_toString season)%string |};
  getTemperature := fun _ _ => Normal "12 C"%string;
  getDescription := fun _ => Normal "drizzle"%string;
  biomeSelections := ["desert"%string; "tundra"%string];
  seasonSelections := ["0"%string; "1"%string; "2"%string; "3"%string];
  humiditySelections := ["0"%string; "1"%string; "2"%string];
  climateSelections := ["0"%string; "1"%string; "2"%string];
  super_getData := tt
|}.

Definition tables : Tables ext :=
  @Build_Tables ext Number_toString Number_toString Number_toString
    (fun key =>
       if String.eqb key "desert"
       then Some (@Build_BiomeMapping ext 2%Z 0%Z)
       else if String.eqb key "tundra"
       then Some (@Build_BiomeMapping ext 0%Z 0%Z)
       else None).

Definition select (options : list string) (value : string) : SelectElement :=
  {| select_options := options; select_value := value |}.

(** The dialog as rendered, panel closed, everything on its first option
    but the season. *)
Definition rendered : Page := {|
  window_element :=
    Some {| style_top := "100px"; style_left := "100px";
            show_weather := false |};
  date_display_altFormat := Some false;
  climate_select := Some (select ["0"; "1"; "2"] "1")%string;
  humidity_select := Some (select ["0"; "1"; "2"] "1")%string;
  season_select := Some (select ["0"; "1"; "2"; "3"] "3")%string;
  biome_select := Some (select [""; "desert"; "tundra"] "")%string
|}.

(** Nothing of the dialog is in the document yet. *)
Definition unrendered : Page := {|
  window_element := None;
  date_display_altFormat := None;
  climate_select := None;
  humidity_select := None;
  season_select := None;
  biome_select := None
|}.

Definition saved : Settings ext :=
  @Build_Settings ext (Some {| left := 40; top := 250 |})
    (Some 1%Z) (Some 1%Z) (Some 3%Z) (Some EmptyString).

Definition unsaved : Settings ext :=
  @Build_Settings ext None None None None None.

Definition record1 : WeatherData (Content ext) :=
  {| date := Some Sample.day1; content := "1-1-3"%string |}.

(** A reading with the five temporal fields and nothing to display. *)
Definition bare : DateData := {|
  second := num 0;
  minute := num 0;
  day := num 1;
  month := num 1;
  year := num 1000;
  display := None;
  weekdays := None;
  dayOfTheWeek := undefined
|}.

Definition bare_record : WeatherData (Content ext) :=
  {| date := Some bare; content := "1-1-3"%string |}.

(** A generated record that has not seen a date yet. *)
Definition dateless : WeatherData (Content ext) :=
  {| date := None; content := "0-1-0"%string |}.

Definition holding (cw stored : option (WeatherData (Content ext)))
    : State ext := {|
  currentWeather := cw;
  weatherPanelOpen := false;
  windowPosition := {| left := 40; top := 250 |};
  lastWeatherData := stored
|}.

Definition running : World ext :=
  {| app := holding (Some record1) (Some record1);
     settings := saved;
     page := rendered |}.

(** First start: nothing stored, nothing rendered. *)
Definition first_start : World ext :=
  {| app := holding None None; settings := unsaved; page := unrendered |}.

Definition host (gm accepts : bool) : Host := {|
  isClientGM := gm;
  useCelsius := true;
  dialogDisplay := true;
  climate_selection := None;
  humidity_selection := None;
  season_selection := None;
  storeAccepts := accepts
|}.

Definition gm : Host := host true true.
Definition player : Host := host false true.
Definition gm_store_down : Host := host true false.

End Demo.

(** * Properties *)

(** ** Field comparison *)

Lemma Field_eqb_eq (a b : Field) : Field_eqb a b = true <-> a = b.
Proof.
  destruct a, b; simpl; split; intro H;
    try reflexivity; try discriminate.
  - apply Z.eqb_eq in H. now subst.
  - injection H as ->. apply Z.eqb_refl.
Qed.

Lemma strict_ne_true (a b : Field) : strict_ne a b = true <-> a <> b.
Proof.
  unfold strict_ne. rewrite negb_true_iff, <- not_true_iff_false.
  now rewrite Field_eqb_eq.
Qed.

Lemma strict_ne_false (a b : Field) : strict_ne a b = false <-> a = b.
Proof.
  unfold strict_ne. rewrite negb_false_iff. apply Field_eqb_eq.
Qed.

Lemma strict_ne_same (a : Field) : strict_ne a a = false.
Proof. now apply strict_ne_false. Qed.

Lemma isDefined_num (a : Field) : isDefined a = true <-> exists z, a = num z.
Proof.
  destruct a; simpl; split; intro H;
    try discriminate; try (destruct H as [z H]; discriminate).
  - now exists z.
  - reflexivity.
Qed.

(** ** The change detector *)

Section ChangeDetector.

Context {X : Externals}.
Implicit Types (s : State X) (previous incoming : DateData).

(** A snapshot is valid exactly when its five temporal fields are numbers. *)
Lemma isDateTimeValid_iff incoming :
  isDateTimeValid incoming = true <->
  (exists z, second incoming = num z) /\ (exists z, minute incoming = num z)
  /\ (exists z, day incoming = num z) /\ (exists z, month incoming = num z)
  /\ (exists z, year incoming = num z).
Proof.
  unfold isDateTimeValid. rewrite <- !isDefined_num.
  destruct (isDefined (second incoming)), (isDefined (minute incoming)),
    (isDefined (day incoming)), (isDefined (month incoming)),
    (isDefined (year incoming)); simpl; intuition discriminate.
Qed.

(** With both snapshots at hand, the answer is the three-way comparison,
    guarded by the validity of the incoming one. *)
Lemma hasDateChanged_both s previous incoming :
  currentWeather_date s = Some previous ->
  hasDateChanged s (Some incoming) =
    isDateTimeValid incoming
    && (strict_ne (day incoming) (day previous)
        || strict_ne (month incoming) (month previous)
        || strict_ne (year incoming) (year previous)).
Proof.
  intros Hprev. unfold hasDateChanged. rewrite Hprev.
  destruct (isDateTimeValid incoming); [|reflexivity].
  now destruct (_ || _).
Qed.

Lemma hasDateChanged_first s incoming :
  currentWeather_date s = None -> hasDateChanged s (Some incoming) = true.
Proof. intros Hprev. unfold hasDateChanged. now rewrite Hprev. Qed.

Lemma hasDateChanged_same s incoming :
  currentWeather_date s = Some incoming ->
  hasDateChanged s (Some incoming) = false.
Proof.
  intros Hprev. rewrite (hasDateChanged_both s incoming incoming Hprev).
  rewrite !strict_ne_same. apply andb_false_r.
Qed.

(** A date that has not changed was compared with a held one. *)
Lemma hasDateChanged_false_held s incoming :
  hasDateChanged s (Some incoming) = false ->
  exists w, currentWeather s = Some w.
Proof.
  unfold hasDateChanged, currentWeather_date.
  destruct (currentWeather s) as [w|]; [now exists w | discriminate].
Qed.

(** C3: when a previous snapshot is held and both it and the incoming one
    have all five temporal fields, [hasDateChanged] answers [true] exactly
    when day, month or year differ; snapshots that agree on the three (so
    differ at most in second and minute) give [false]. *)
Theorem hasDateChanged_valid_pair s previous incoming :
  currentWeather_date s = Some previous ->
  isDateTimeValid previous = true ->
  isDateTimeValid incoming = true ->
  (hasDateChanged s (Some incoming) = true <->
     day incoming <> day previous
     \/ month incoming <> month previous
     \/ year incoming <> year previous)
  /\ (day incoming = day previous ->
      month incoming = month previous ->
      year incoming = year previous ->
      hasDateChanged s (Some incoming) = false).
Proof.
  intros Hprev _ Hvalid.
  rewrite (hasDateChanged_both s previous incoming Hprev), Hvalid.
  simpl. split.
  - rewrite !orb_true_iff, !strict_ne_true. tauto.
  - intros -> -> ->. now rewrite !strict_ne_same.
Qed.

(** C4, as amended: against a held previous snapshot, an incoming snapshot
    lacking one of the five temporal fields is never a change; with no
    previous snapshot, any incoming snapshot is a change, valid or not. *)
Theorem hasDateChanged_invalid_incoming s incoming :
  (isDateTimeValid incoming = false ->
   forall previous, currentWeather_date s = Some previous ->
     hasDateChanged s (Some incoming) = false)
  /\ (currentWeather_date s = None ->
      hasDateChanged s (Some incoming) = true).
Proof.
  split.
  - intros Hinvalid previous Hprev.
    now rewrite (hasDateChanged_both s previous incoming Hprev), Hinvalid.
  - apply hasDateChanged_first.
Qed.

End ChangeDetector.

Lemma hasDateChanged_valid_pair_witness :
  hasDateChanged Sample.settled (Some Sample.day2) = true
  /\ hasDateChanged Sample.settled (Some (Sample.on 1 1 1000 30 15)) = false.
Proof.
  pose proof (@hasDateChanged_valid_pair Sample.ext Sample.settled
                Sample.day1 Sample.day2
                eq_refl eq_refl eq_refl) as [Hday _].
  pose proof (@hasDateChanged_valid_pair Sample.ext Sample.settled
                Sample.day1 (Sample.on 1 1 1000 30 15)
                eq_refl eq_refl eq_refl) as [_ Htime].
  split.
  - apply Hday. left. discriminate.
  - apply Htime; reflexivity.
Defined.

(** C4 as first stated fails: nothing is held, the reading is partial, and
    the detector still reports a change. *)
Lemma hasDateChanged_invalid_incoming_counterexample :
  isDateTimeValid Sample.partial = false
  /\ hasDateChanged Sample.blank (Some Sample.partial) = true.
Proof. split; reflexivity. Qed.

Lemma hasDateChanged_invalid_incoming_witness :
  hasDateChanged Sample.settled (Some Sample.partial) = false
  /\ hasDateChanged Sample.blank (Some Sample.partial) = true
  /\ hasDateChanged Sample.blank (Some Sample.day1) = true.
Proof.
  destruct (@hasDateChanged_invalid_incoming Sample.ext Sample.settled
              Sample.partial) as [Hheld _].
  destruct (@hasDateChanged_invalid_incoming Sample.ext Sample.blank
              Sample.partial) as [_ Hfirst].
  destruct (@hasDateChanged_invalid_incoming Sample.ext Sample.blank
              Sample.day1) as [_ Hfirst_valid].
  split; [|split].
  - exact (Hheld eq_refl Sample.day1 eq_refl).
  - exact (Hfirst eq_refl).
  - exact (Hfirst_valid eq_refl).
Defined.

(** ** Running sequenced steps *)

Section Steps.

Context {S E : Type}.

Lemma run_eta {A : Type} (r : Run S E A) :
  {| outcome := outcome r; final := final r; events := events r |} = r.
Proof. now destruct r. Qed.

Lemma bind_ret {A B : Type} (a : A) (k : A -> Eff S E B) (s : S) :
  bind (ret a) k s = k a s.
Proof. unfold bind, ret. simpl. apply run_eta. Qed.

Lemma bind_gets {A B : Type} (f : S -> A) (k : A -> Eff S E B) (s : S) :
  bind (gets f) k s = k (f s) s.
Proof. unfold bind, gets. simpl. apply run_eta. Qed.

Lemma bind_modify {B : Type} (f : S -> S) (k : unit -> Eff S E B) (s : S) :
  bind (modify f) k s = k tt (f s).
Proof. unfold bind, modify. simpl. apply run_eta. Qed.

Lemma bind_throw {A B : Type} (e : Error) (k : A -> Eff S E B) (s : S) :
  bind (throw e) k s = throw e s.
Proof. reflexivity. Qed.

Lemma bind_emit {B : Type} (ev : E) (k : unit -> Eff S E B) (s : S) :
  bind (emit ev) k s =
    {| outcome := outcome (k tt s); final := final (k tt s);
       events := ev :: events (k tt s) |}.
Proof. reflexivity. Qed.

(** A step that completes hands its value and state to the rest. *)
Lemma bind_normal {A B : Type} {m : Eff S E A} (k : A -> Eff S E B)
    {s s' : S} {a : A} {l : list E} :
  m s = {| outcome := Normal a; final := s'; events := l |} ->
  bind m k s =
    {| outcome := outcome (k a s'); final := final (k a s');
       events := l ++ events (k a s') |}.
Proof. intros Hm. unfold bind. now rewrite Hm. Qed.

(** A step that throws ends the sequence where it stands. *)
Lemma bind_thrown {A B : Type} {m : Eff S E A} (k : A -> Eff S E B)
    {s s' : S} {e : Error} {l : list E} :
  m s = {| outcome := Throw e; final := s'; events := l |} ->
  bind m k s = {| outcome := Throw e; final := s'; events := l |}.
Proof. intros Hm. unfold bind. now rewrite Hm. Qed.

Lemma bind_assoc {A B C : Type} (m : Eff S E A) (f : A -> Eff S E B)
    (g : B -> Eff S E C) (s : S) :
  bind (bind m f) g s = bind m (fun a => bind (f a) g) s.
Proof.
  unfold bind. destruct (m s) as [[a|e] s1 l1]; simpl; [|reflexivity].
  destruct (f a s1) as [[b|e] s2 l2]; simpl; [|reflexivity].
  now rewrite app_assoc.
Qed.

End Steps.

(** ** Time updates *)

Section TimeUpdate.

Context {X : Externals}.
Implicit Types (h : Host) (s : State X) (w : WeatherData (Content X))
  (incoming : DateData).

Lemma currentWeather_date_held s w :
  currentWeather s = Some w -> currentWeather_date s = date w.
Proof. intros Hcw. unfold currentWeather_date. now rewrite Hcw. Qed.

Lemma assign_currentWeather_date_held incoming s w :
  currentWeather s = Some w ->
  assign_currentWeather_date incoming s =
    {| outcome := Normal tt;
       final := set_currentWeather (Some (with_date w incoming)) s;
       events := [] |}.
Proof.
  intros Hcw. unfold assign_currentWeather_date.
  now rewrite bind_gets, Hcw.
Qed.

Lemma assign_currentWeather_date_missing incoming s :
  currentWeather s = None ->
  assign_currentWeather_date incoming s =
    {| outcome := Throw TypeError; final := s; events := [] |}.
Proof.
  intros Hcw. unfold assign_currentWeather_date.
  now rewrite bind_gets, Hcw.
Qed.

Lemma moduleSettings_set_lastWeatherData_run h s
    (value : option (WeatherData (Content X))) :
  moduleSettings_set_lastWeatherData h value s =
    {| outcome := Normal (if storeAccepts h then Fulfilled else Rejected);
       final := if storeAccepts h then set_lastWeatherData value s else s;
       events := [EWrite value] |}.
Proof.
  unfold moduleSettings_set_lastWeatherData.
  rewrite bind_emit. destruct (storeAccepts h).
  - now rewrite bind_modify.
  - reflexivity.
Qed.

(** The four ways a call with a snapshot can go. *)

Lemma updateDateTime_same_date h s w incoming :
  currentWeather s = Some w ->
  hasDateChanged s (Some incoming) = false ->
  updateDateTime h (Some incoming) s =
    {| outcome := Normal tt;
       final := set_currentWeather (Some (with_date w incoming)) s;
       events := [ERender] |}.
Proof.
  intros Hcw Hsame. unfold updateDateTime.
  rewrite bind_gets, Hsame.
  now rewrite (bind_normal _ (assign_currentWeather_date_held incoming s w Hcw)).
Qed.

Lemma updateDateTime_player h s incoming :
  hasDateChanged s (Some incoming) = true ->
  isClientGM h = false ->
  updateDateTime h (Some incoming) s =
    {| outcome := Normal tt; final := s; events := [ERender] |}.
Proof.
  intros Hchanged Hplayer. unfold updateDateTime.
  now rewrite bind_gets, Hchanged, Hplayer, bind_ret.
Qed.

Lemma updateDateTime_gm_missing h s incoming :
  currentWeather s = None ->
  isClientGM h = true ->
  updateDateTime h (Some incoming) s =
    {| outcome := Throw TypeError; final := s; events := [] |}.
Proof.
  intros Hcw Hgm. unfold updateDateTime.
  rewrite bind_gets, hasDateChanged_first, Hgm
    by (unfold currentWeather_date; now rewrite Hcw).
  apply bind_thrown, bind_thrown.
  now apply assign_currentWeather_date_missing.
Qed.

Lemma updateDateTime_gm_changed h s w incoming :
  currentWeather s = Some w ->
  hasDateChanged s (Some incoming) = true ->
  isClientGM h = true ->
  updateDateTime h (Some incoming) s =
    let w' := with_date w incoming in
    if storeAccepts h then
      {| outcome := Normal tt;
         final := set_lastWeatherData (Some w')
                    (set_currentWeather (Some w') s);
         events := [EWrite (Some w'); ERender] |}
    else
      {| outcome := Throw StoreWriteFailure;
         final := set_currentWeather (Some w') s;
         events := [EWrite (Some w')] |}.
Proof.
  intros Hcw Hchanged Hgm. unfold updateDateTime.
  rewrite bind_gets, Hchanged, Hgm.
  rewrite bind_assoc.
  rewrite (bind_normal _ (assign_currentWeather_date_held incoming s w Hcw)).
  cbv beta. rewrite bind_assoc, bind_gets, bind_assoc.
  rewrite (bind_normal _ (moduleSettings_set_lastWeatherData_run h _ _)).
  destruct (storeAccepts h); reflexivity.
Qed.

End TimeUpdate.

(** ** Bootstrap and manual regeneration *)

Ltac eff_step :=
  first [ rewrite bind_assoc | rewrite bind_gets | rewrite bind_ret
        | rewrite bind_modify | rewrite bind_emit ];
  cbv beta.

Section Commits.

Context {X : Externals}.
Implicit Types (h : Host) (s : State X) (w : WeatherData (Content X)).

Lemma setWeather_stored h s w :
  lastWeatherData s = Some w ->
  setWeather h s =
    {| outcome := Normal tt;
       final := set_currentWeather (Some w) s;
       events := [ERender] |}.
Proof.
  intros Hstored. unfold setWeather.
  rewrite bind_gets, Hstored. now rewrite bind_modify.
Qed.

Lemma setWeather_empty_player h s :
  lastWeatherData s = None ->
  isClientGM h = false ->
  setWeather h s = {| outcome := Normal tt; final := s; events := [ERender] |}.
Proof.
  intros Hstored Hplayer. unfold setWeather.
  now rewrite bind_gets, Hstored, Hplayer, bind_ret.
Qed.

Lemma setWeather_empty_gm h s :
  lastWeatherData s = None ->
  isClientGM h = true ->
  setWeather h s =
    let w := generate X (Climate_Cold X) (Humidity_Modest X)
               (Season_Spring X) None in
    {| outcome := Normal tt;
       final := if storeAccepts h
                then set_lastWeatherData (Some w)
                       (set_currentWeather (Some w) s)
                else set_currentWeather (Some w) s;
       events := [EGenerate (Climate_Cold X) (Humidity_Modest X)
                    (Season_Spring X) None;
                  EWrite (Some w); ERender] |}.
Proof.
  intros Hstored Hgm. unfold setWeather, call_generate.
  rewrite bind_gets, Hstored, Hgm.
  repeat eff_step.
  rewrite (bind_normal _ (moduleSettings_set_lastWeatherData_run h _ _)).
  destruct (storeAccepts h); reflexivity.
Qed.

Lemma onWeatherRegenerateClick_incomplete h s :
  getClimate X h = None \/ getHumidity X h = None \/ getSeason X h = None ->
  onWeatherRegenerateClick h s =
    {| outcome := Normal tt; final := s; events := [] |}.
Proof.
  unfold onWeatherRegenerateClick.
  intros [Hmissing | [Hmissing | Hmissing]]; rewrite Hmissing.
  - now destruct (getHumidity X h).
  - reflexivity.
  - now destruct (getHumidity X h), (getClimate X h).
Qed.

Lemma onWeatherRegenerateClick_complete h s cl hu se :
  getClimate X h = Some cl ->
  getHumidity X h = Some hu ->
  getSeason X h = Some se ->
  onWeatherRegenerateClick h s =
    let w := generate X cl hu se (currentWeather s) in
    {| outcome := Normal tt;
       final := if storeAccepts h
                then set_lastWeatherData (Some w)
                       (set_currentWeather (Some w) s)
                else set_currentWeather (Some w) s;
       events := [EGenerate cl hu se (currentWeather s);
                  EWrite (Some w); ERender] |}.
Proof.
  intros Hcl Hhu Hse. unfold onWeatherRegenerateClick, call_generate.
  rewrite Hcl, Hhu, Hse.
  repeat eff_step.
  rewrite (bind_normal _ (moduleSettings_set_lastWeatherData_run h _ _)).
  destruct (storeAccepts h); reflexivity.
Qed.

End Commits.

(** ** The regeneration controller *)

Section Controller.

Context {X : Externals}.
Implicit Types (h : Host) (s : State X) (w : WeatherData (Content X))
  (incoming : DateData).

(** No path through [updateDateTime] reaches the generator. *)
Lemma updateDateTime_never_generates h s (currentDate : option DateData) :
  generateCount (events (updateDateTime h currentDate s)) = 0.
Proof.
  destruct currentDate as [incoming|]; [|reflexivity].
  destruct (hasDateChanged s (Some incoming)) eqn:Hchanged.
  - destruct (isClientGM h) eqn:Hgm.
    + destruct (currentWeather s) as [w|] eqn:Hcw.
      * rewrite (updateDateTime_gm_changed h s w incoming Hcw Hchanged Hgm).
        now destruct (storeAccepts h).
      * now rewrite updateDateTime_gm_missing.
    + now rewrite updateDateTime_player.
  - destruct (hasDateChanged_false_held s incoming Hchanged) as [w Hcw].
    now rewrite (updateDateTime_same_date h s w incoming Hcw Hchanged).
Qed.

(** C2: on a changed date with [isClientGM()] false, [updateDateTime] asks
    the store for no write and the generator for nothing; it completes with
    the application state and the store exactly as they were. *)
Theorem updateDateTime_player_no_commit h s incoming :
  hasDateChanged s (Some incoming) = true ->
  isClientGM h = false ->
  let r := updateDateTime h (Some incoming) s in
  writeCount (events r) = 0
  /\ generateCount (events r) = 0
  /\ final r = s
  /\ outcome r = Normal tt.
Proof.
  intros Hchanged Hplayer r. subst r.
  rewrite (updateDateTime_player h s incoming Hchanged Hplayer).
  repeat split.
Qed.

(** C5, as amended: on a client holding a record, a call with a snapshot
    puts that snapshot into the record's date whenever the date has not
    changed or the client is the GM; on a changed date with a client that is
    not the GM the record is left as it was. *)
Theorem updateDateTime_refreshes_date h s w incoming :
  currentWeather s = Some w ->
  (hasDateChanged s (Some incoming) = false \/ isClientGM h = true ->
   currentWeather (final (updateDateTime h (Some incoming) s))
     = Some (with_date w incoming))
  /\ (hasDateChanged s (Some incoming) = true ->
      isClientGM h = false ->
      currentWeather (final (updateDateTime h (Some incoming) s))
        = Some w).
Proof.
  intros Hcw. split.
  - intros Hcase.
    destruct (hasDateChanged s (Some incoming)) eqn:Hchanged.
    + destruct Hcase as [Hsame | Hgm]; [discriminate|].
      rewrite (updateDateTime_gm_changed h s w incoming Hcw Hchanged Hgm).
      now destruct (storeAccepts h).
    + now rewrite (updateDateTime_same_date h s w incoming Hcw Hchanged).
  - intros Hchanged Hplayer.
    now rewrite (updateDateTime_player h s incoming Hchanged Hplayer).
Qed.

(** Assigning the date a record already carries changes nothing. *)
Lemma with_date_same w incoming :
  date w = Some incoming -> with_date w incoming = w.
Proof. destruct w as [d c]. simpl. now intros ->. Qed.

Lemma set_currentWeather_same s :
  set_currentWeather (currentWeather s) s = s.
Proof. now destruct s. Qed.

(** After any call that got as far as the assignment, the held record
    carries the incoming snapshot. *)
Lemma updateDateTime_gm_adopts h s w incoming :
  currentWeather s = Some w ->
  isClientGM h = true ->
  currentWeather (final (updateDateTime h (Some incoming) s))
    = Some (with_date w incoming).
Proof.
  intros Hcw Hgm.
  destruct (hasDateChanged s (Some incoming)) eqn:Hchanged.
  - rewrite (updateDateTime_gm_changed h s w incoming Hcw Hchanged Hgm).
    now destruct (storeAccepts h).
  - now rewrite (updateDateTime_same_date h s w incoming Hcw Hchanged).
Qed.

Lemma updateDateTime_writes_at_most_once h s (currentDate : option DateData) :
  writeCount (events (updateDateTime h currentDate s)) <= 1.
Proof.
  destruct currentDate as [incoming|]; [|cbv; lia].
  destruct (hasDateChanged s (Some incoming)) eqn:Hchanged.
  - destruct (isClientGM h) eqn:Hgm.
    + destruct (currentWeather s) as [w|] eqn:Hcw.
      * rewrite (updateDateTime_gm_changed h s w incoming Hcw Hchanged Hgm).
        destruct (storeAccepts h); cbv; lia.
      * rewrite updateDateTime_gm_missing by assumption. cbv. lia.
    + rewrite updateDateTime_player by assumption. cbv. lia.
  - destruct (hasDateChanged_false_held s incoming Hchanged) as [w Hcw].
    rewrite (updateDateTime_same_date h s w incoming Hcw Hchanged).
    cbv. lia.
Qed.

(** C8: two calls in a row with the same valid snapshot, both as GM, ask the
    store for at most one write between them; when a record is held, the
    first call leaves the snapshot in it, the second then finds the date
    unchanged, only renders, and leaves the state as the first call left
    it. *)
Theorem updateDateTime_twice h1 h2 s incoming :
  isDateTimeValid incoming = true ->
  isClientGM h1 = true ->
  isClientGM h2 = true ->
  let r1 := updateDateTime h1 (Some incoming) s in
  let r2 := updateDateTime h2 (Some incoming) (final r1) in
  writeCount (events r1) + writeCount (events r2) <= 1
  /\ (currentWeather s <> None ->
      currentWeather_date (final r1) = Some incoming
      /\ hasDateChanged (final r1) (Some incoming) = false
      /\ events r2 = [ERender]
      /\ outcome r2 = Normal tt
      /\ final r2 = final r1).
Proof.
  intros _ Hgm1 Hgm2 r1 r2.
  destruct (currentWeather s) as [w|] eqn:Hcw.
  - pose proof (updateDateTime_gm_adopts h1 s w incoming Hcw Hgm1) as Hheld.
    fold r1 in Hheld.
    assert (Hdate : currentWeather_date (final r1) = Some incoming)
      by (unfold currentWeather_date; now rewrite Hheld).
    pose proof (hasDateChanged_same (final r1) incoming Hdate) as Hsame.
    assert (Hr2 : r2 = {| outcome := Normal tt; final := final r1;
                          events := [ERender] |}).
    { subst r2.
      rewrite (updateDateTime_same_date h2 (final r1) _ incoming Hheld Hsame).
      rewrite with_date_same by reflexivity.
      now rewrite <- Hheld, set_currentWeather_same. }
    split.
    + rewrite Hr2. cbn [events].
      change (writeCount [@ERender X]) with 0.
      pose proof (updateDateTime_writes_at_most_once h1 s (Some incoming))
        as Hone.
      fold r1 in Hone. lia.
    + intros _. rewrite Hr2. now repeat split.
  - split; [|congruence].
    subst r2 r1.
    rewrite (updateDateTime_gm_missing h1 s incoming Hcw Hgm1). simpl final.
    rewrite (updateDateTime_gm_missing h2 s incoming Hcw Hgm2). cbv. lia.
Qed.

End Controller.

(** C1: the GM's client holds the record of 1/1/1000 and the feed reports
    2/1/1000.  The snapshot is attached and the whole record is handed to the
    store, but the generator is not called: the record written carries the
    content of the previous one. *)
Theorem updateDateTime_gm_day_change :
  let r := updateDateTime Sample.gm (Some Sample.day2) Sample.settled in
  let w' : WeatherData (Content Sample.ext) :=
    {| date := Some Sample.day2; content := "sunny"%string |} in
  hasDateChanged Sample.settled (Some Sample.day2) = true
  /\ events r = [EWrite (Some w'); ERender]
  /\ generateCount (events r) = 0
  /\ currentWeather (final r) = Some w'
  /\ lastWeatherData (final r) = Some w'
  /\ content w' = content Sample.record1.
Proof. repeat split. Qed.

Lemma updateDateTime_player_no_commit_witness :
  let r := updateDateTime Sample.player (Some Sample.day2) Sample.settled in
  writeCount (events r) = 0
  /\ generateCount (events r) = 0
  /\ final r = Sample.settled
  /\ outcome r = Normal tt.
Proof.
  exact (@updateDateTime_player_no_commit Sample.ext Sample.player
           Sample.settled Sample.day2 eq_refl eq_refl).
Defined.

(** C5 as first stated fails: a player's client sees the day change and keeps
    showing the old date. *)
Lemma updateDateTime_refreshes_date_counterexample :
  currentWeather_date
    (final (updateDateTime Sample.player (Some Sample.day2) Sample.settled))
  <> Some Sample.day2.
Proof. vm_compute. discriminate. Qed.

Lemma updateDateTime_refreshes_date_witness :
  currentWeather
    (final (updateDateTime Sample.gm (Some Sample.day2) Sample.settled))
    = Some (with_date Sample.record1 Sample.day2)
  /\ currentWeather
       (final (updateDateTime Sample.player (Some Sample.day2) Sample.settled))
     = Some Sample.record1.
Proof.
  destruct (@updateDateTime_refreshes_date Sample.ext Sample.gm
              Sample.settled Sample.record1 Sample.day2 eq_refl)
    as [Hgm _].
  destruct (@updateDateTime_refreshes_date Sample.ext Sample.player
              Sample.settled Sample.record1 Sample.day2 eq_refl)
    as [_ Hplayer].
  split.
  - apply Hgm. right. reflexivity.
  - apply Hplayer; reflexivity.
Defined.

Lemma updateDateTime_twice_witness :
  let r1 := updateDateTime Sample.gm (Some Sample.day2) Sample.settled in
  let r2 := updateDateTime Sample.gm (Some Sample.day2) (final r1) in
  writeCount (events r1) + writeCount (events r2) <= 1
  /\ events r2 = [ERender].
Proof.
  destruct (@updateDateTime_twice Sample.ext Sample.gm Sample.gm
              Sample.settled Sample.day2 eq_refl eq_refl eq_refl)
    as [Honce Hsecond].
  split.
  - exact Honce.
  - apply Hsecond. discriminate.
Defined.

(** ** Bootstrap, manual regeneration and failed writes *)

Section Regeneration.

Context {X : Externals}.
Implicit Types (h : Host) (s : State X) (w : WeatherData (Content X))
  (incoming : DateData).

(** C6: [setWeather] adopts a stored record as it is, whatever the role,
    calling neither the generator nor the store's write; on an empty store
    the GM's client calls the generator once, with Cold, Modest, Spring and
    no seed, then asks the store once to take that record, and holds it; on
    an empty store any other client calls nothing and its state, so also an
    absent record, stays as it was. *)
Theorem setWeather_bootstrap h s :
  (forall w, lastWeatherData s = Some w ->
     let r := setWeather h s in
     currentWeather (final r) = Some w
     /\ generateCount (events r) = 0
     /\ writeCount (events r) = 0
     /\ lastWeatherData (final r) = Some w)
  /\ (lastWeatherData s = None -> isClientGM h = true ->
      let r := setWeather h s in
      let w := generate X (Climate_Cold X) (Humidity_Modest X)
                 (Season_Spring X) None in
      events r = [EGenerate (Climate_Cold X) (Humidity_Modest X)
                    (Season_Spring X) None;
                  EWrite (Some w); ERender]
      /\ generateCount (events r) = 1
      /\ writeCount (events r) = 1
      /\ currentWeather (final r) = Some w
      /\ (storeAccepts h = true -> lastWeatherData (final r) = Some w))
  /\ (lastWeatherData s = None -> isClientGM h = false ->
      let r := setWeather h s in
      generateCount (events r) = 0
      /\ writeCount (events r) = 0
      /\ final r = s
      /\ (currentWeather s = None -> currentWeather (final r) = None)).
Proof.
  split; [|split].
  - intros w Hstored r. subst r.
    rewrite (setWeather_stored h s w Hstored). now repeat split.
  - intros Hempty Hgm r w. subst r.
    rewrite (setWeather_empty_gm h s Hempty Hgm). fold w.
    destruct (storeAccepts h); repeat split; discriminate.
  - intros Hempty Hplayer r. subst r.
    rewrite (setWeather_empty_player h s Hempty Hplayer).
    now repeat split.
Qed.

(** C9: with the climate, the humidity or the season selection missing, a
    regeneration click calls neither the generator nor the store and leaves
    the state as it was; with all three present it calls the generator with
    them and the current record as seed, holds the result and asks the store
    to take it, which an accepting store does. *)
Theorem onWeatherRegenerateClick_parameters h s :
  (getClimate X h = None \/ getHumidity X h = None \/ getSeason X h = None ->
   let r := onWeatherRegenerateClick h s in
   events r = [] /\ final r = s)
  /\ (forall cl hu se,
        getClimate X h = Some cl ->
        getHumidity X h = Some hu ->
        getSeason X h = Some se ->
        let r := onWeatherRegenerateClick h s in
        let w := generate X cl hu se (currentWeather s) in
        events r = [EGenerate cl hu se (currentWeather s);
                    EWrite (Some w); ERender]
        /\ currentWeather (final r) = Some w
        /\ (storeAccepts h = true -> lastWeatherData (final r) = Some w)).
Proof.
  split.
  - intros Hmissing r. subst r.
    now rewrite (onWeatherRegenerateClick_incomplete h s Hmissing).
  - intros cl hu se Hcl Hhu Hse r w. subst r.
    rewrite (onWeatherRegenerateClick_complete h s cl hu se Hcl Hhu Hse). fold w.
    destruct (storeAccepts h); repeat split; discriminate.
Qed.

(** C7, as amended: when the store fails the write, the store keeps what it
    had, but the record in memory has already been changed and stays
    changed: after a time update it carries the incoming snapshot and the
    call ends in the store's failure; after a regeneration click it is the
    newly generated record. *)
Theorem failed_write_keeps_mutation h s :
  storeAccepts h = false ->
  (forall w incoming,
     currentWeather s = Some w ->
     hasDateChanged s (Some incoming) = true ->
     isClientGM h = true ->
     let r := updateDateTime h (Some incoming) s in
     outcome r = Throw StoreWriteFailure
     /\ currentWeather (final r) = Some (with_date w incoming)
     /\ lastWeatherData (final r) = lastWeatherData s)
  /\ (forall cl hu se,
        getClimate X h = Some cl ->
        getHumidity X h = Some hu ->
        getSeason X h = Some se ->
        let r := onWeatherRegenerateClick h s in
        currentWeather (final r)
          = Some (generate X cl hu se (currentWeather s))
        /\ lastWeatherData (final r) = lastWeatherData s).
Proof.
  intros Hdown. split.
  - intros w incoming Hcw Hchanged Hgm r. subst r.
    rewrite (updateDateTime_gm_changed h s w incoming Hcw Hchanged Hgm).
    rewrite Hdown. now repeat split.
  - intros cl hu se Hcl Hhu Hse r. subst r.
    rewrite (onWeatherRegenerateClick_complete h s cl hu se Hcl Hhu Hse).
    rewrite Hdown. now split.
Qed.

(** C10: with no current weather, [getData] completes, every field derived
    from the weather is the empty string, and the selection lists and the
    window position are handed over as they are. *)
Theorem getData_without_weather h s :
  currentWeather s = None ->
  exists data,
    outcome (getData h s) = Normal data
    /\ displayDate data = EmptyString
    /\ formattedDate data = EmptyString
    /\ formattedTime data = EmptyString
    /\ weekday data = Some EmptyString
    /\ currentTemperature data = EmptyString
    /\ currentDescription data = EmptyString
    /\ data_biomeSelections data = biomeSelections X
    /\ data_seasonSelections data = seasonSelections X
    /\ data_humiditySelections data = humiditySelections X
    /\ data_climateSelections data = climateSelections X
    /\ data_windowPosition data = windowPosition s.
Proof.
  intros Hcw. unfold getData.
  rewrite bind_gets.
  unfold currentWeather_date_display, currentWeather_date.
  rewrite Hcw. rewrite !bind_ret.
  eexists. split; [reflexivity|]. now repeat split.
Qed.

End Regeneration.

Lemma setWeather_bootstrap_witness :
  currentWeather (final (setWeather Sample.player Sample.settled))
    = Some Sample.record1
  /\ writeCount (events (setWeather Sample.gm Sample.blank)) = 1
  /\ final (setWeather Sample.player Sample.blank) = Sample.blank.
Proof.
  destruct (@setWeather_bootstrap Sample.ext Sample.player Sample.settled)
    as [Hstored _].
  destruct (@setWeather_bootstrap Sample.ext Sample.gm Sample.blank)
    as [_ [Hgm _]].
  destruct (@setWeather_bootstrap Sample.ext Sample.player Sample.blank)
    as [_ [_ Hplayer]].
  split; [|split].
  - apply (Hstored Sample.record1 eq_refl).
  - apply (Hgm eq_refl eq_refl).
  - apply (Hplayer eq_refl eq_refl).
Defined.

Lemma onWeatherRegenerateClick_parameters_witness :
  events (onWeatherRegenerateClick Sample.gm_no_climate Sample.settled) = []
  /\ lastWeatherData (final (onWeatherRegenerateClick Sample.gm Sample.settled))
     = Some {| date := Some Sample.day1; content := "fresh"%string |}.
Proof.
  destruct (@onWeatherRegenerateClick_parameters Sample.ext
              Sample.gm_no_climate Sample.settled) as [Hmissing _].
  destruct (@onWeatherRegenerateClick_parameters Sample.ext
              Sample.gm Sample.settled) as [_ Hpresent].
  split.
  - apply Hmissing. left. reflexivity.
  - apply (Hpresent 1%Z 1%Z 1%Z eq_refl eq_refl eq_refl). reflexivity.
Defined.

(** C7 as first stated fails: the store refuses the write of a day change and
    the record in memory is no longer the one held before the call. *)
Lemma failed_write_keeps_mutation_counterexample :
  let r := updateDateTime Sample.gm_store_down (Some Sample.day2)
             Sample.settled in
  outcome r = Throw StoreWriteFailure
  /\ lastWeatherData (final r) = lastWeatherData Sample.settled
  /\ currentWeather (final r) <> currentWeather Sample.settled.
Proof. vm_compute. repeat split. discriminate. Qed.

Lemma failed_write_keeps_mutation_witness :
  currentWeather
    (final (updateDateTime Sample.gm_store_down (Some Sample.day2)
              Sample.settled))
    = Some (with_date Sample.record1 Sample.day2)
  /\ currentWeather
       (final (onWeatherRegenerateClick Sample.gm_store_down Sample.settled))
     = Some {| date := Some Sample.day1; content := "fresh"%string |}.
Proof.
  destruct (@failed_write_keeps_mutation Sample.ext Sample.gm_store_down
              Sample.settled eq_refl) as [Hupdate Hclick].
  split.
  - apply (Hupdate Sample.record1 Sample.day2 eq_refl eq_refl eq_refl).
  - apply (Hclick 1%Z 1%Z 1%Z eq_refl eq_refl eq_refl).
Defined.

Lemma getData_without_weather_witness :
  exists data,
    outcome (getData Sample.player Sample.blank) = Normal data
    /\ displayDate data = EmptyString
    /\ formattedDate data = EmptyString
    /\ formattedTime data = EmptyString
    /\ weekday data = Some EmptyString
    /\ currentTemperature data = EmptyString
    /\ currentDescription data = EmptyString
    /\ data_biomeSelections data = ["forest"%string]
    /\ data_seasonSelections data = ["spring"%string]
    /\ data_humiditySelections data = ["modest"%string]
    /\ data_climateSelections data = ["cold"%string]
    /\ data_windowPosition data = {| left := 100; top := 100 |}.
Proof.
  exact (@getData_without_weather Sample.ext Sample.player Sample.blank
           eq_refl).
Defined.

(** * Further properties *)

(** ** Time updates, path by path *)

Section TimeUpdatePaths.

Context {X : Externals}.
Implicit Types (h : Host) (s : State X) (w : WeatherData (Content X))
  (incoming : DateData) (currentDate : option DateData).

Lemma updateDateTime_path h s currentDate :
  UpdatePath h s currentDate (updateDateTime h currentDate s).
Proof.
  destruct currentDate as [incoming|]; [|now apply path_absent].
  destruct (hasDateChanged s (Some incoming)) eqn:Hchanged.
  - destruct (isClientGM h) eqn:Hgm.
    + destruct (currentWeather s) as [w|] eqn:Hcw.
      * rewrite (updateDateTime_gm_changed h s w incoming Hcw Hchanged Hgm).
        destruct (storeAccepts h) eqn:Hstore.
        -- now apply path_gm_written.
        -- now apply path_gm_refused.
      * rewrite (updateDateTime_gm_missing h s incoming Hcw Hgm).
        now apply path_gm_missing with incoming.
    + rewrite (updateDateTime_player h s incoming Hchanged Hgm).
      now apply path_player with incoming.
  - destruct (hasDateChanged_false_held s incoming Hchanged) as [w Hcw].
    rewrite (updateDateTime_same_date h s w incoming Hcw Hchanged).
    now apply path_same_date.
Qed.

(** X1: [updateDateTime] ends in a [TypeError] exactly when a snapshot
    arrives at a GM's client that holds no record, and then nothing was
    called and nothing changed; it ends in the store's failure exactly when a
    GM's client holding a record sees the date change and the store refuses
    the write; there is no third way to fail, and a failed call has not
    rendered. *)
Theorem updateDateTime_failures h s currentDate :
  let r := updateDateTime h currentDate s in
  (outcome r = Throw TypeError <->
     currentDate <> None /\ isClientGM h = true /\ currentWeather s = None)
  /\ (outcome r = Throw TypeError -> events r = [] /\ final r = s)
  /\ (outcome r = Throw StoreWriteFailure <->
        currentDate <> None /\ hasDateChanged s currentDate = true
        /\ isClientGM h = true /\ currentWeather s <> None
        /\ storeAccepts h = false)
  /\ (outcome r = Normal tt \/ outcome r = Throw TypeError
      \/ outcome r = Throw StoreWriteFailure)
  /\ (outcome r <> Normal tt -> ~ In ERender (events r)).
Proof.
  intros r. subst r.
  destruct (updateDateTime_path h s currentDate); subst; cbn [outcome events final].
  all: repeat split; try (intros; intuition congruence).
  all: try (right; now left); try (now left); try (right; now right).
  intros _ [Hin | []]. discriminate.
Qed.

(** X2: [updateDateTime] asks the store for a write exactly when a snapshot
    arrives, the date has changed, the client is the GM and a record is
    held, and never more than once; what it writes is the record in memory,
    carrying the incoming snapshot. *)
Theorem updateDateTime_write_condition h s currentDate :
  let r := updateDateTime h currentDate s in
  (writeCount (events r) = 1 <->
     currentDate <> None /\ hasDateChanged s currentDate = true
     /\ isClientGM h = true /\ currentWeather s <> None)
  /\ writeCount (events r) <= 1
  /\ (forall value, In (EWrite value) (events r) ->
        value = currentWeather (final r)
        /\ option_map date value = Some currentDate).
Proof.
  intros r. subst r.
  destruct (updateDateTime_path h s currentDate); subst;
    cbn [outcome events final];
    (split; [|split]).
  all: try (cbv [writeCount filter isWrite List.length];
            intuition (congruence || lia)).
  all: intros value Hin; cbn [In] in Hin;
    repeat (destruct Hin as [Hin | Hin]);
    try discriminate; try contradiction.
  all: injection Hin as <-; now split.
Qed.

(** X3: no call of [updateDateTime] changes the content of the record in
    memory, creates a record where none was held, or drops one. *)
Theorem updateDateTime_keeps_content h s currentDate :
  option_map content (currentWeather (final (updateDateTime h currentDate s)))
  = option_map content (currentWeather s).
Proof.
  destruct (updateDateTime_path h s currentDate) as
    [ _ | incoming w _ _ Hcw | | | incoming w _ _ _ Hcw _
    | incoming w _ _ _ Hcw _ ];
    cbn [final]; try reflexivity; now rewrite Hcw.
Qed.

(** X4: a record that carries no date takes the first snapshot that arrives
    as a change of date, whether or not the snapshot is valid; on the GM's
    client it is attached to the record and handed to the store. *)
Theorem updateDateTime_first_snapshot h s w incoming :
  currentWeather s = Some w ->
  date w = None ->
  isClientGM h = true ->
  let r := updateDateTime h (Some incoming) s in
  hasDateChanged s (Some incoming) = true
  /\ currentWeather (final r) = Some (with_date w incoming)
  /\ events r = EWrite (Some (with_date w incoming))
                  :: (if storeAccepts h then [ERender] else [])
  /\ (storeAccepts h = true ->
      lastWeatherData (final r) = Some (with_date w incoming)).
Proof.
  intros Hcw Hdate Hgm r.
  assert (Hchanged : hasDateChanged s (Some incoming) = true).
  { apply hasDateChanged_first.
    now rewrite (currentWeather_date_held s w Hcw). }
  subst r. rewrite (updateDateTime_gm_changed h s w incoming Hcw Hchanged Hgm).
  destruct (storeAccepts h); repeat split; try assumption; discriminate.
Qed.

End TimeUpdatePaths.

Lemma updateDateTime_first_snapshot_witness :
  isDateTimeValid Sample.partial = false
  /\ lastWeatherData
       (final (updateDateTime Demo.gm (Some Sample.partial)
                 (Demo.holding (Some Demo.dateless) (Some Demo.dateless))))
     = Some {| date := Some Sample.partial; content := "0-1-0"%string |}.
Proof.
  split; [reflexivity|].
  apply (@updateDateTime_first_snapshot Demo.ext Demo.gm
           (Demo.holding (Some Demo.dateless) (Some Demo.dateless))
           Demo.dateless Sample.partial eq_refl eq_refl eq_refl).
  reflexivity.
Defined.

(** ** Bootstrap and regeneration, composed *)

(** The ways through [getData]: what is held, and what its methods do. *)
Ltac getData_paths h s :=
  unfold getData; rewrite bind_gets;
  unfold currentWeather_date_display, currentWeather_date;
  destruct (currentWeather s) as [rec|] eqn:Hcw;
  [ destruct (date rec) as [d|] eqn:Hdate;
    [ destruct (weekdays d) as [names|] eqn:Hnames | ];
    destruct (getTemperature _ rec (useCelsius h)) as [t|e1] eqn:Htemp;
    destruct (getDescription _ rec) as [desc|e2] eqn:Hdesc
  | ];
  cbn.


Section Composition.

Context {X : Externals}.
Implicit Types (h : Host) (s : State X) (w : WeatherData (Content X))
  (currentDate : option DateData).

Lemma setWeather_holds_record h s :
  isClientGM h = true \/ lastWeatherData s <> None ->
  exists w, currentWeather (final (setWeather h s)) = Some w.
Proof.
  intros Hcase.
  destruct (lastWeatherData s) as [w|] eqn:Hstored.
  - exists w. now rewrite (setWeather_stored h s w Hstored).
  - destruct Hcase as [Hgm | Hne]; [|congruence].
    rewrite (setWeather_empty_gm h s Hstored Hgm).
    eexists. now destruct (storeAccepts h).
Qed.

(** X5: after [setWeather] on the GM's client, or against a store that
    holds a record, a record is held; no later [updateDateTime], whatever the
    snapshot and the role, ends in a [TypeError]. *)
Theorem setWeather_then_updateDateTime h1 h2 s currentDate :
  isClientGM h1 = true \/ lastWeatherData s <> None ->
  let s1 := final (setWeather h1 s) in
  currentWeather s1 <> None
  /\ outcome (updateDateTime h2 currentDate s1) <> Throw TypeError.
Proof.
  intros Hcase s1.
  destruct (setWeather_holds_record h1 s Hcase) as [w Hheld].
  fold s1 in Hheld. split; [congruence|].
  destruct (updateDateTime_path h2 s1 currentDate);
    cbn [outcome]; congruence.
Qed.

(** X6: calling [setWeather] again changes nothing further; when the store
    takes writes, the second call neither generates nor writes. *)
Theorem setWeather_again h s :
  let r1 := setWeather h s in
  let r2 := setWeather h (final r1) in
  final r2 = final r1
  /\ (storeAccepts h = true -> events r2 = [ERender]).
Proof.
  intros r1 r2. subst r2 r1.
  destruct (lastWeatherData s) as [w|] eqn:Hstored.
  - rewrite (setWeather_stored h s w Hstored). cbn [final].
    now erewrite setWeather_stored by exact Hstored.
  - destruct (isClientGM h) eqn:Hgm.
    + rewrite (setWeather_empty_gm h s Hstored Hgm). cbv zeta. cbn [final].
      destruct (storeAccepts h) eqn:Hstore.
      * now erewrite setWeather_stored by reflexivity.
      * erewrite setWeather_empty_gm by (exact Hstored || exact Hgm).
        rewrite Hstore. split; [reflexivity | discriminate].
    + rewrite (setWeather_empty_player h s Hstored Hgm). cbn [final].
      now rewrite (setWeather_empty_player h s Hstored Hgm).
Qed.

(** X7: whenever one of the three committing methods has asked an accepting
    store for a write, the store ends up holding exactly the record held in
    memory. *)
Theorem commit_matches_memory h s :
  storeAccepts h = true ->
  (forall currentDate,
     let r := updateDateTime h currentDate s in
     1 <= writeCount (events r) ->
     lastWeatherData (final r) = currentWeather (final r))
  /\ (let r := setWeather h s in
      1 <= writeCount (events r) ->
      lastWeatherData (final r) = currentWeather (final r))
  /\ (let r := onWeatherRegenerateClick h s in
      1 <= writeCount (events r) ->
      lastWeatherData (final r) = currentWeather (final r)).
Proof.
  intros Hstore. split; [|split].
  - intros currentDate r. subst r.
    destruct (updateDateTime_path h s currentDate);
      cbn [events final]; cbv [writeCount filter isWrite List.length];
      try lia; try reflexivity; congruence.
  - intros r. subst r.
    destruct (lastWeatherData s) as [w|] eqn:Hstored.
    + rewrite (setWeather_stored h s w Hstored).
      cbv [writeCount filter isWrite List.length events]. lia.
    + destruct (isClientGM h) eqn:Hgm.
      * rewrite (setWeather_empty_gm h s Hstored Hgm), Hstore. reflexivity.
      * rewrite (setWeather_empty_player h s Hstored Hgm).
        cbv [writeCount filter isWrite List.length events]. lia.
  - intros r. subst r.
    destruct (getClimate X h) as [cl|] eqn:Hcl;
      [destruct (getHumidity X h) as [hu|] eqn:Hhu;
       [destruct (getSeason X h) as [se|] eqn:Hse|]|].
    + rewrite (onWeatherRegenerateClick_complete h s cl hu se Hcl Hhu Hse).
      rewrite Hstore. reflexivity.
    + rewrite onWeatherRegenerateClick_incomplete by tauto.
      cbv [writeCount filter isWrite List.length events]. lia.
    + rewrite onWeatherRegenerateClick_incomplete by tauto.
      cbv [writeCount filter isWrite List.length events]. lia.
    + rewrite onWeatherRegenerateClick_incomplete by tauto.
      cbv [writeCount filter isWrite List.length events]. lia.
Qed.

(** X8: a regeneration click seeds the generator with the record in memory:
    a second click is seeded with the record the first one generated, also
    when the store refused to take it. *)
Theorem onWeatherRegenerateClick_chain h1 h2 s cl1 hu1 se1 cl2 hu2 se2 :
  getClimate X h1 = Some cl1 ->
  getHumidity X h1 = Some hu1 ->
  getSeason X h1 = Some se1 ->
  getClimate X h2 = Some cl2 ->
  getHumidity X h2 = Some hu2 ->
  getSeason X h2 = Some se2 ->
  let r1 := onWeatherRegenerateClick h1 s in
  let r2 := onWeatherRegenerateClick h2 (final r1) in
  let w1 := generate X cl1 hu1 se1 (currentWeather s) in
  let w2 := generate X cl2 hu2 se2 (Some w1) in
  events r2 = [EGenerate cl2 hu2 se2 (Some w1); EWrite (Some w2); ERender]
  /\ currentWeather (final r2) = Some w2.
Proof.
  intros Hcl1 Hhu1 Hse1 Hcl2 Hhu2 Hse2 r1 r2 w1 w2. subst r2 r1.
  rewrite (onWeatherRegenerateClick_complete h1 s cl1 hu1 se1 Hcl1 Hhu1 Hse1).
  cbv zeta. fold w1.
  rewrite (onWeatherRegenerateClick_complete h2 _ cl2 hu2 se2 Hcl2 Hhu2 Hse2).
  cbv zeta.
  destruct (storeAccepts h1), (storeAccepts h2); cbn; fold w2; now split.
Qed.

(** X9: [getData] reads only: it calls nothing and leaves the state as it
    was.  It can fail only with a record held: with a [TypeError] when the
    record's date has no [weekdays] to index, which it then always does, or
    with the error that record's [getTemperature] or [getDescription]
    threw. *)
Theorem getData_reads_only h s :
  let r := getData h s in
  events r = []
  /\ final r = s
  /\ (forall e, outcome r = Throw e ->
        exists w, currentWeather s = Some w
                  /\ ((e = TypeError
                       /\ exists d, date w = Some d /\ weekdays d = None)
                      \/ getTemperature X w (useCelsius h) = Throw e
                      \/ getDescription X w = Throw e))
  /\ (forall w d,
        currentWeather s = Some w ->
        date w = Some d ->
        weekdays d = None ->
        outcome r = Throw TypeError).
Proof.
  intros r. subst r.
  getData_paths h s; (split; [reflexivity|]); (split; [reflexivity|]); split.
  all: try (intros e Hthrown; discriminate).
  all: try (intros e Hthrown; injection Hthrown as <-;
            exists rec; split; [reflexivity|]).
  all: try (intros w0 d0 Hw Hd Hn; congruence).
  all: try (right; left; assumption); try (right; right; assumption).
  all: try (left; split; [reflexivity|]; exists d; now split).
Qed.

End Composition.

Lemma setWeather_then_updateDateTime_witness :
  outcome (updateDateTime Sample.gm (Some Sample.day2)
             (final (setWeather Sample.gm Sample.blank)))
  <> Throw TypeError.
Proof.
  apply (@setWeather_then_updateDateTime Sample.ext Sample.gm Sample.gm
           Sample.blank (Some Sample.day2) (or_introl eq_refl)).
Defined.

Lemma commit_matches_memory_witness :
  lastWeatherData (final (updateDateTime Sample.gm (Some Sample.day2)
                            Sample.settled))
  = Some (with_date Sample.record1 Sample.day2)
  /\ lastWeatherData (final (setWeather Sample.gm Sample.blank))
     = currentWeather (final (setWeather Sample.gm Sample.blank)).
Proof.
  destruct (@commit_matches_memory Sample.ext Sample.gm Sample.settled
              eq_refl) as [Hupdate _].
  destruct (@commit_matches_memory Sample.ext Sample.gm Sample.blank
              eq_refl) as [_ [Hboot _]].
  split.
  - apply (Hupdate (Some Sample.day2)). cbv. lia.
  - apply Hboot. cbv. lia.
Defined.

Lemma onWeatherRegenerateClick_chain_witness :
  let r1 := onWeatherRegenerateClick Sample.gm_store_down Sample.settled in
  let w : WeatherData (Content Sample.ext) :=
    {| date := Some Sample.day1; content := "fresh"%string |} in
  events (onWeatherRegenerateClick Sample.gm (final r1))
  = [@EGenerate Sample.ext 1%Z 1%Z 1%Z (Some w); EWrite (Some w); ERender].
Proof.
  apply (@onWeatherRegenerateClick_chain Sample.ext Sample.gm_store_down
           Sample.gm Sample.settled 1%Z 1%Z 1%Z 1%Z 1%Z 1%Z
           eq_refl eq_refl eq_refl eq_refl eq_refl eq_refl).
Defined.

Lemma getData_reads_only_witness :
  outcome (getData Demo.player (Demo.holding (Some Demo.bare_record) None))
  = Throw TypeError.
Proof.
  destruct (@getData_reads_only Demo.ext Demo.player
              (Demo.holding (Some Demo.bare_record) None))
    as (_ & _ & _ & Hbare).
  apply (Hbare Demo.bare_record Demo.bare eq_refl eq_refl eq_refl).
Defined.

(** ** The window and the constructor *)

Section Window.

Context {X : Externals}.
Implicit Types (h : Host) (w : World X) (p : WindowPosition).

Lemma WindowPosition_eta p : {| left := left p; top := top p |} = p.
Proof. now destruct p. Qed.

Lemma moduleSettings_set_run h (call : ShellEvent X)
    (save : Settings X -> Settings X) w :
  moduleSettings_set h call save w =
    {| outcome := Normal (if storeAccepts h then Fulfilled else Rejected);
       final := if storeAccepts h then on_settings save w else w;
       events := [call] |}.
Proof.
  unfold moduleSettings_set. rewrite bind_emit.
  destruct (storeAccepts h).
  - now rewrite bind_modify.
  - reflexivity.
Qed.

Lemma setWindowPosition_run h p w :
  setWindowPosition h p w =
    {| outcome := Normal tt;
       final := if storeAccepts h
                then on_settings (save_windowPosition p) (positioned p w)
                else positioned p w;
       events := [SSetWindowPosition p] |}.
Proof.
  unfold setWindowPosition, positioned. cbv zeta.
  rewrite (WindowPosition_eta p).
  rewrite bind_gets, bind_modify.
  destruct (window_element (page w)) as [e|].
  - rewrite bind_modify.
    rewrite (bind_normal _ (moduleSettings_set_run h _ _ _)).
    destruct (storeAccepts h); reflexivity.
  - rewrite bind_ret.
    rewrite (bind_normal _ (moduleSettings_set_run h _ _ _)).
    destruct (storeAccepts h); reflexivity.
Qed.


Lemma setWeather_completes (h0 : Host) (s : State X) :
  outcome (setWeather h0 s) = Normal tt
  /\ windowPosition (final (setWeather h0 s)) = windowPosition s
  /\ weatherPanelOpen (final (setWeather h0 s)) = weatherPanelOpen s.
Proof.
  destruct (lastWeatherData s) as [rec|] eqn:Hstored.
  - now rewrite (setWeather_stored h0 s rec Hstored).
  - destruct (isClientGM h0) eqn:Hgm.
    + rewrite (setWeather_empty_gm h0 s Hstored Hgm).
      now destruct (storeAccepts h0).
    + now rewrite (setWeather_empty_player h0 s Hstored Hgm).
Qed.

Lemma in_app_normal {A : Type} h (m : Host -> Eff (State X) (Event X) A) w
    (a : A) :
  outcome (m (host_on h (page w)) (app w)) = Normal a ->
  in_app h m w =
    {| outcome := Normal a;
       final := on_app (fun _ => final (m (host_on h (page w)) (app w))) w;
       events := map SApp (events (m (host_on h (page w)) (app w))) |}.
Proof. intros Hm. unfold in_app. now rewrite Hm. Qed.

(** The world a new instance finds once its position is settled. *)
Lemma constructor_run h w :
  let p := starting_position w in
  let w0 := on_app (set_weatherPanelOpen false) (on_app fresh w) in
  let w1 := if storeAccepts h
            then on_settings (save_windowPosition p) (positioned p w0)
            else positioned p w0 in
  let boot := setWeather (host_on h (page w1)) (app w1) in
  constructor h w =
    {| outcome := Normal tt;
       final := on_app (fun _ => final boot) w1;
       events := SSetWindowPosition p :: map SApp (events boot)
                   ++ [SRenderForce] |}.
Proof.
  intros p w0 w1 boot. unfold constructor.
  rewrite !bind_modify, bind_gets. fold w0.
  change (match saved_windowPosition (settings w0) with
          | Some p0 => p0
          | None => {| left := 100; top := 100 |}
          end) with p.
  rewrite (bind_normal _ (setWindowPosition_run h p w0)). fold w1.
  destruct (setWeather_completes (host_on h (page w1)) (app w1))
    as [Hdone _].
  rewrite (bind_normal _ (in_app_normal h (@setWeather X) w1 tt Hdone)).
  fold boot. reflexivity.
Qed.

Lemma getData_normal (h0 : Host) (s : State X) (data : TemplateData X) :
  outcome (getData h0 s) = Normal data ->
  data_windowPosition data = windowPosition s
  /\ data_weatherPanelOpen data = weatherPanelOpen s.
Proof.
  getData_paths h0 s; try discriminate; now intros [= <-].
Qed.

(** X10: [setWindowPosition] always completes; the position it is given is
    the one [getData] then reports and the one the window element, when
    there is one, is styled with in pixels; the one call it makes is the
    save of the position, and the weather in memory and in the store is not
    touched. *)
Theorem setWindowPosition_effect h p w :
  let r := setWindowPosition h p w in
  outcome r = Normal tt
  /\ events r = [SSetWindowPosition p]
  /\ (forall h' data,
        outcome (in_app h' (@getData X) (final r)) = Normal data ->
        data_windowPosition data = p)
  /\ (forall e, window_element (page w) = Some e ->
        window_element (page (final r)) =
          Some {| style_top := Number_toString (top p) ++ "px";
                  style_left := Number_toString (left p) ++ "px";
                  show_weather := show_weather e |})
  /\ currentWeather (app (final r)) = currentWeather (app w)
  /\ lastWeatherData (app (final r)) = lastWeatherData (app w).
Proof.
  intros r. subst r. rewrite (setWindowPosition_run h p w).
  cbn [outcome events final]. unfold positioned.
  split; [reflexivity|]. split; [reflexivity|]. split; [|split; [|split]].
  - intros h' data Hdata. unfold in_app in Hdata. cbn [outcome] in Hdata.
    apply getData_normal in Hdata as [Hpos _]. rewrite Hpos.
    destruct (storeAccepts h), (window_element (page w)); reflexivity.
  - intros e He. rewrite He. now destruct (storeAccepts h).
  - destruct (storeAccepts h), (window_element (page w)); reflexivity.
  - destruct (storeAccepts h), (window_element (page w)); reflexivity.
Qed.

(** X11: a new instance starts at the saved window position, and at left
    100, top 100 when none is saved; so a position that
    [setWindowPosition] got into the store is the one the next instance
    starts at. *)
Theorem constructor_position h w :
  windowPosition (app (final (constructor h w))) = starting_position w
  /\ (saved_windowPosition (settings w) = None ->
      windowPosition (app (final (constructor h w)))
        = {| left := 100; top := 100 |})
  /\ (forall h1 p w0,
        storeAccepts h1 = true ->
        w = final (setWindowPosition h1 p w0) ->
        windowPosition (app (final (constructor h w))) = p).
Proof.
  assert (Hstart :
    windowPosition (app (final (constructor h w))) = starting_position w).
  { rewrite (constructor_run h w). cbv zeta. cbn [final on_app app].
    match goal with
    | |- windowPosition (final (setWeather ?h0 ?s0)) = _ =>
        destruct (setWeather_completes h0 s0) as (_ & Hpos & _)
    end.
    rewrite Hpos. unfold positioned.
    destruct (storeAccepts h), (window_element (page _)); reflexivity. }
  split; [exact Hstart|]. split.
  - intros Hnone. rewrite Hstart. unfold starting_position. now rewrite Hnone.
  - intros h1 p w0 Haccepts ->. rewrite Hstart.
    rewrite (setWindowPosition_run h1 p w0), Haccepts.
    reflexivity.
Qed.

(** X12: a new instance has its panel closed and holds what [setWeather]
    gives it: the stored record when there is one, a freshly generated one on
    the GM's client, nothing otherwise, whatever the previous instance held.
    The constructor always completes; it saves the position first and
    renders twice, once from [setWeather] and once itself. *)
Theorem constructor_bootstrap h w :
  let r := constructor h w in
  outcome r = Normal tt
  /\ weatherPanelOpen (app (final r)) = false
  /\ (forall rec, lastWeatherData (app w) = Some rec ->
        currentWeather (app (final r)) = Some rec
        /\ events r = [SSetWindowPosition (starting_position w);
                       SApp ERender; SRenderForce])
  /\ (lastWeatherData (app w) = None -> isClientGM h = true ->
      let rec := generate X (Climate_Cold X) (Humidity_Modest X)
                   (Season_Spring X) None in
      currentWeather (app (final r)) = Some rec
      /\ events r = [SSetWindowPosition (starting_position w);
                     SApp (EGenerate (Climate_Cold X) (Humidity_Modest X)
                             (Season_Spring X) None);
                     SApp (EWrite (Some rec)); SApp ERender; SRenderForce])
  /\ (lastWeatherData (app w) = None -> isClientGM h = false ->
      currentWeather (app (final r)) = None
      /\ events r = [SSetWindowPosition (starting_position w);
                     SApp ERender; SRenderForce]).
Proof.
  intros r. subst r. rewrite (constructor_run h w). cbv zeta.
  cbn [outcome final events on_app app].
  match goal with
  | |- context [setWeather ?h0 ?s0] =>
      set (h0' := h0); set (s0' := s0)
  end.
  assert (Hstore : lastWeatherData s0' = lastWeatherData (app w)).
  { subst s0'. unfold positioned.
    destruct (storeAccepts h), (window_element (page _)); reflexivity. }
  assert (Hgm : isClientGM h0' = isClientGM h) by reflexivity.
  assert (Hopen : weatherPanelOpen s0' = false).
  { subst s0'. unfold positioned.
    destruct (storeAccepts h), (window_element (page _)); reflexivity. }
  assert (Hnone : currentWeather s0' = None).
  { subst s0'. unfold positioned.
    destruct (storeAccepts h), (window_element (page _)); reflexivity. }
  split; [reflexivity|]. split; [|split; [|split]].
  - destruct (setWeather_completes h0' s0') as (_ & _ & Hpanel).
    now rewrite Hpanel.
  - intros rec Hrec. rewrite <- Hstore in Hrec.
    now rewrite (setWeather_stored h0' s0' rec Hrec).
  - intros Hempty Hrole. rewrite <- Hstore in Hempty.
    rewrite <- Hgm in Hrole.
    rewrite (setWeather_empty_gm h0' s0' Hempty Hrole).
    now destruct (storeAccepts h0').
  - intros Hempty Hrole. rewrite <- Hstore in Hempty.
    rewrite <- Hgm in Hrole.
    rewrite (setWeather_empty_player h0' s0' Hempty Hrole).
    cbn [final events map app]. now rewrite Hnone.
Qed.

End Window.

Lemma constructor_position_witness :
  windowPosition
    (app (final (constructor Demo.player
                   (final (setWindowPosition Demo.gm
                             {| left := 7; top := 9 |} Demo.running)))))
  = {| left := 7; top := 9 |}
  /\ windowPosition (app (final (constructor Demo.gm Demo.first_start)))
     = {| left := 100; top := 100 |}.
Proof.
  destruct (@constructor_position Demo.ext Demo.player
              (final (setWindowPosition Demo.gm {| left := 7; top := 9 |}
                        Demo.running))) as (_ & _ & Hsaved).
  destruct (@constructor_position Demo.ext Demo.gm Demo.first_start)
    as (_ & Hdefault & _).
  split.
  - apply (Hsaved Demo.gm {| left := 7; top := 9 |} Demo.running
             eq_refl eq_refl).
  - apply Hdefault. reflexivity.
Defined.

Lemma constructor_bootstrap_witness :
  currentWeather (app (final (constructor Demo.player Demo.running)))
  = Some Demo.record1
  /\ currentWeather (app (final (constructor Demo.gm Demo.first_start)))
     = Some Demo.dateless
  /\ currentWeather (app (final (constructor Demo.player Demo.first_start)))
     = None.
Proof.
  destruct (@constructor_bootstrap Demo.ext Demo.player Demo.running)
    as (_ & _ & Hstored & _).
  destruct (@constructor_bootstrap Demo.ext Demo.gm Demo.first_start)
    as (_ & _ & _ & Hgm & _).
  destruct (@constructor_bootstrap Demo.ext Demo.player Demo.first_start)
    as (_ & _ & _ & _ & Hplayer).
  split; [|split].
  - apply (Hstored Demo.record1 eq_refl).
  - apply (Hgm eq_refl eq_refl).
  - apply (Hplayer eq_refl eq_refl).
Defined.

(** ** The panel and the selections *)

Section Handlers.

Context {X : Externals}.
Variable T : Tables X.
Implicit Types (h : Host) (w : World X) (target : option string).

Lemma onWeatherToggleClick_run w :
  onWeatherToggleClick w =
    {| outcome := Normal tt; final := toggled w; events := [] |}.
Proof.
  unfold onWeatherToggleClick, toggled.
  rewrite bind_gets, bind_modify, bind_gets. cbn [page on_app].
  now destruct (window_element (page w)).
Qed.

(** X13: a click on the panel toggle flips [weatherPanelOpen] and, when the
    window element is there, its [show-weather] class, so the two stay in
    step; it calls nothing, not even [render]; a second click undoes the
    first. *)
Theorem onWeatherToggleClick_twice w :
  let r1 := onWeatherToggleClick w in
  let r2 := onWeatherToggleClick (final r1) in
  outcome r1 = Normal tt
  /\ events r1 = []
  /\ weatherPanelOpen (app (final r1)) = negb (weatherPanelOpen (app w))
  /\ (forall e, window_element (page w) = Some e ->
        show_weather e = weatherPanelOpen (app w) ->
        exists e', window_element (page (final r1)) = Some e'
                   /\ show_weather e' = weatherPanelOpen (app (final r1)))
  /\ final r2 = w.
Proof.
  intros r1 r2. subst r2 r1. rewrite !onWeatherToggleClick_run.
  cbn [outcome events final].
  split; [reflexivity|]. split; [reflexivity|]. split; [|split].
  - unfold toggled. now destruct (window_element (page w)).
  - intros e He Hsync. unfold toggled. rewrite He.
    eexists. split; [reflexivity|]. cbn. now rewrite Hsync.
  - destruct w as [[cw open pos stored] st [[[t l sw]|] alt c hu se b]];
      cbv [toggled on_app on_page set_weatherPanelOpen set_window_element
           toggle_show_weather app page settings window_element
           weatherPanelOpen currentWeather windowPosition lastWeatherData
           style_top style_left show_weather date_display_altFormat
           climate_select humidity_select season_select biome_select];
      now rewrite !negb_involutive.
Qed.

(** X14: a change of the climate or of the humidity selection saves
    [Number(target.value)] under its key and does nothing else: no
    generation, no render, the application and the page as they were; an
    event without a target ends in a [TypeError] before anything is
    called. *)
Theorem select_change_only_saves h w :
  (forall value,
     let r := onClimateSelectChange h (Some value) w in
     outcome r = Normal tt
     /\ events r = [SSetClimate (Number_as_Climate X value)]
     /\ app (final r) = app w
     /\ page (final r) = page w
     /\ settings (final r) =
          if storeAccepts h
          then save_climate (Number_as_Climate X value) (settings w)
          else settings w)
  /\ (forall value,
        let r := onHumiditySelectChange h (Some value) w in
        outcome r = Normal tt
        /\ events r = [SSetHumidity (Number_as_Humidity X value)]
        /\ app (final r) = app w
        /\ page (final r) = page w
        /\ settings (final r) =
             if storeAccepts h
             then save_humidity (Number_as_Humidity X value) (settings w)
             else settings w)
  /\ onClimateSelectChange h None w =
       {| outcome := Throw TypeError; final := w; events := [] |}
  /\ onHumiditySelectChange h None w =
       {| outcome := Throw TypeError; final := w; events := [] |}.
Proof.
  split; [|split; [|split; reflexivity]].
  - intros value r. subst r. unfold onClimateSelectChange. cbv zeta.
    rewrite (bind_normal _ (moduleSettings_set_run h _ _ w)).
    destruct (storeAccepts h); now repeat split.
  - intros value r. subst r. unfold onHumiditySelectChange. cbv zeta.
    rewrite (bind_normal _ (moduleSettings_set_run h _ _ w)).
    destruct (storeAccepts h); now repeat split.
Qed.

(** What a known biome does to the page. *)
Lemma onBiomeSelectChange_known h w value m :
  biomeMappings T value = Some m ->
  let r := onBiomeSelectChange T h (Some value) w in
  outcome r = Normal tt
  /\ events r = [SSetBiome value]
  /\ app (final r) = app w
  /\ settings (final r) =
       (if storeAccepts h then save_biome value (settings w) else settings w)
  /\ climate_select (page (final r)) =
       option_map (assign_value (String_of_Climate T (mapping_climate m)))
         (climate_select (page w))
  /\ humidity_select (page (final r)) =
       option_map (assign_value (String_of_Humidity T (mapping_humidity m)))
         (humidity_select (page w))
  /\ season_select (page (final r)) = season_select (page w)
  /\ biome_select (page (final r)) = biome_select (page w)
  /\ window_element (page (final r)) = window_element (page w).
Proof.
  intros Hm r. subst r. unfold onBiomeSelectChange. rewrite Hm.
  rewrite (bind_normal _ (moduleSettings_set_run h _ _ w)).
  cbv beta. rewrite bind_gets.
  destruct (storeAccepts h);
    cbn [final on_settings page];
    destruct (climate_select (page w)) as [ec|] eqn:Hc;
    destruct (humidity_select (page w)) as [eh|] eqn:Hh;
    rewrite ?bind_modify, ?bind_ret, bind_gets;
    cbn [page on_page on_settings set_climate_select humidity_select];
    rewrite ?Hh;
    cbn; rewrite ?Hc, ?Hh; repeat split; reflexivity.
Qed.

(** X15: a biome the table does not know changes nothing and calls
    nothing; a known one is saved under the biome key and its climate and
    humidity are assigned to the two selects that are on the page, while the
    saved climate and the saved humidity stay as they were. *)
Theorem onBiomeSelectChange_effect h w value :
  let r := onBiomeSelectChange T h (Some value) w in
  (biomeMappings T value = None ->
   r = {| outcome := Normal tt; final := w; events := [] |})
  /\ (forall m, biomeMappings T value = Some m ->
        events r = [SSetBiome value]
        /\ app (final r) = app w
        /\ (storeAccepts h = true ->
            saved_biome (settings (final r)) = Some value)
        /\ saved_climate (settings (final r)) = saved_climate (settings w)
        /\ saved_humidity (settings (final r)) = saved_humidity (settings w)
        /\ climate_select (page (final r)) =
             option_map
               (assign_value (String_of_Climate T (mapping_climate m)))
               (climate_select (page w))
        /\ humidity_select (page (final r)) =
             option_map
               (assign_value (String_of_Humidity T (mapping_humidity m)))
               (humidity_select (page w))).
Proof.
  intros r. split.
  - intros Hnone. subst r. unfold onBiomeSelectChange. now rewrite Hnone.
  - intros m Hm.
    destruct (onBiomeSelectChange_known h w value m Hm)
      as (_ & Hev & Happ & Hset & Hc & Hh & _).
    fold r in Hev, Happ, Hset, Hc, Hh.
    rewrite Hev, Happ, Hset, Hc, Hh.
    destruct (storeAccepts h); repeat split; discriminate.
Qed.

End Handlers.

(** ** Wiring the handlers to the page *)

Section Wiring.

Context {X : Externals}.
Variable T : Tables X.
Implicit Types (h : Host) (w : World X) (target : option string)
  (e : SelectElement).

Lemma assign_value_In (v : string) e :
  In v (select_options e) -> select_value (assign_value v e) = v.
Proof.
  intros Hin. unfold assign_value. cbn [select_value].
  assert (Hfound : existsb (String.eqb v) (select_options e) = true).
  { apply existsb_exists. exists v. split; [exact Hin|]. apply String.eqb_refl. }
  now rewrite Hfound.
Qed.

Lemma assign_value_twice (u v : string) e :
  assign_value u (assign_value v e) = assign_value u e.
Proof. reflexivity. Qed.

(** X16: after a known biome has been chosen on a page whose climate and
    humidity selects offer that biome's values, a regeneration click
    generates with the biome's climate and humidity and the season on the
    page, provided [Number] reads back what [String] wrote; the saved
    climate and humidity are still the old ones. *)
Theorem onBiomeSelectChange_then_regenerate h w value m ec eh es :
  biomeMappings T value = Some m ->
  climate_select (page w) = Some ec ->
  humidity_select (page w) = Some eh ->
  season_select (page w) = Some es ->
  In (String_of_Climate T (mapping_climate m)) (select_options ec) ->
  In (String_of_Humidity T (mapping_humidity m)) (select_options eh) ->
  Number_as_Climate X (String_of_Climate T (mapping_climate m))
    = mapping_climate m ->
  Number_as_Humidity X (String_of_Humidity T (mapping_humidity m))
    = mapping_humidity m ->
  let w1 := final (onBiomeSelectChange T h (Some value) w) in
  let r := in_app h (@onWeatherRegenerateClick X) w1 in
  let season := Number_as_Season X (select_value es) in
  let rec := generate X (mapping_climate m) (mapping_humidity m) season
               (currentWeather (app w)) in
  events r = [SApp (EGenerate (mapping_climate m) (mapping_humidity m)
                      season (currentWeather (app w)));
              SApp (EWrite (Some rec)); SApp ERender]
  /\ currentWeather (app (final r)) = Some rec
  /\ saved_climate (settings (final r)) = saved_climate (settings w)
  /\ saved_humidity (settings (final r)) = saved_humidity (settings w).
Proof.
  intros Hm Hc Hh Hs Hinc Hinh Hnc Hnh w1 r season rec.
  destruct (onBiomeSelectChange_known T h w value m Hm)
    as (_ & _ & Happ & Hset & Hc1 & Hh1 & Hs1 & _).
  fold w1 in Happ, Hset, Hc1, Hh1, Hs1.
  rewrite Hc in Hc1. rewrite Hh in Hh1. rewrite Hs in Hs1.
  cbn [option_map] in Hc1, Hh1.
  set (host := host_on h (page w1)).
  assert (Hcl : getClimate X host = Some (mapping_climate m)).
  { unfold getClimate, host, host_on. cbn [climate_selection].
    rewrite Hc1. cbn [option_map].
    now rewrite (assign_value_In _ ec Hinc), Hnc. }
  assert (Hhu : getHumidity X host = Some (mapping_humidity m)).
  { unfold getHumidity, host, host_on. cbn [humidity_selection].
    rewrite Hh1. cbn [option_map].
    now rewrite (assign_value_In _ eh Hinh), Hnh. }
  assert (Hse : getSeason X host = Some season).
  { unfold getSeason, host, host_on. cbn [season_selection].
    now rewrite Hs1. }
  subst r. unfold in_app. fold host.
  rewrite (onWeatherRegenerateClick_complete host (app w1) _ _ _ Hcl Hhu Hse).
  cbv zeta. rewrite Happ. fold rec.
  cbn [outcome final events map on_app app settings].
  rewrite Hset.
  destruct (storeAccepts host), (storeAccepts h); now repeat split.
Qed.

Lemma activateListeners_player h w :
  isClientGM h = false ->
  activateListeners T h w =
    {| outcome := Normal tt;
       final := w;
       events := [SOn "#date-display" "mousedown" ToggleAltFormat;
                  SOn "#sweath-window-move-handle" "mousedown"
                    OnMoveHandleMouseDown;
                  SOn "#weather-toggle" "click" OnWeatherToggleClick;
                  SSuperActivateListeners] |}.
Proof. intros Hplayer. unfold activateListeners. now rewrite Hplayer. Qed.

Lemma activateListeners_gm h w :
  isClientGM h = true ->
  activateListeners T h w =
    {| outcome := Normal tt;
       final := show_saved_selections T w;
       events := [SOn "#date-display" "mousedown" ToggleAltFormat;
                  SOn "#sweath-window-move-handle" "mousedown"
                    OnMoveHandleMouseDown;
                  SOn "#weather-toggle" "click" OnWeatherToggleClick;
                  SOn "#sweath-weather-regenerate" "click"
                    OnWeatherRegenerateClick;
                  SOn "#biome-selection" "change" OnBiomeSelectChange;
                  SOn "#climate-selection" "change" OnClimateSelectChange;
                  SOn "#humidity-selection" "change" OnHumiditySelectChange;
                  SSuperActivateListeners] |}.
Proof. intros Hgm. unfold activateListeners. now rewrite Hgm. Qed.

(** The handlers that neither generate nor save. *)
Lemma handle_local h target w (k : Handler) :
  k = ToggleAltFormat \/ k = OnMoveHandleMouseDown
  \/ k = OnWeatherToggleClick ->
  outcome (handle T h k target w) = Normal tt
  /\ unshared w (final (handle T h k target w))
       (events (handle T h k target w)).
Proof.
  intros [-> | [-> | ->]]; cbn [handle].
  - split; [reflexivity|]. unfold unshared. cbn. intuition.
  - unfold onMoveHandleMouseDown. rewrite bind_gets.
    destruct (window_element (page w)); split; try reflexivity;
      unfold unshared; cbn; intuition; subst; reflexivity.
  - rewrite onWeatherToggleClick_run. split; [reflexivity|].
    unfold unshared, toggled. cbn [final events].
    destruct (window_element (page w)); cbn; intuition.
Qed.

Lemma unshared_trans w w1 w2 (l1 l2 : list (ShellEvent X)) :
  unshared w w1 l1 -> unshared w1 w2 l2 -> unshared w w2 (l1 ++ l2).
Proof.
  intros (Hl1 & Hcw1 & Hst1 & Hc1 & Hh1 & Hb1)
         (Hl2 & Hcw2 & Hst2 & Hc2 & Hh2 & Hb2).
  unfold unshared. repeat split; try congruence.
  intros ev Hin. apply in_app_or in Hin as [Hin | Hin]; auto.
Qed.

Lemma dispatch_local h target (ks : list Handler) :
  (forall k, In k ks ->
     k = ToggleAltFormat \/ k = OnMoveHandleMouseDown
     \/ k = OnWeatherToggleClick) ->
  forall w,
    outcome (dispatch T h ks target w) = Normal tt
    /\ unshared w (final (dispatch T h ks target w))
         (events (dispatch T h ks target w)).
Proof.
  induction ks as [|k rest IH]; intros Hlocal w.
  - split; [reflexivity|]. unfold unshared. cbn. intuition.
  - cbn [dispatch].
    destruct (handle_local h target w k (Hlocal k (or_introl eq_refl)))
      as [Hdone Hquiet].
    assert (Hrun : handle T h k target w =
      {| outcome := Normal tt; final := final (handle T h k target w);
         events := events (handle T h k target w) |}).
    { rewrite <- Hdone. symmetry. apply run_eta. }
    rewrite (bind_normal _ Hrun). cbn [outcome final events].
    destruct (IH (fun k' Hin => Hlocal k' (or_intror Hin))
                 (final (handle T h k target w))) as [Hdone' Hquiet'].
    split; [exact Hdone'|].
    now apply unshared_trans with (final (handle T h k target w)).
Qed.

Lemma bound_player h w (selector event : string) (k : Handler) :
  isClientGM h = false ->
  In k (bound (events (activateListeners T h w)) selector event) ->
  k = ToggleAltFormat \/ k = OnMoveHandleMouseDown
  \/ k = OnWeatherToggleClick.
Proof.
  intros Hplayer. rewrite (activateListeners_player h w Hplayer).
  cbn [events bound].
  repeat match goal with
         | |- context [if ?b then _ else _] => destruct b
         end;
    cbn [In]; intuition.
Qed.

(** X17: on a page wired while [isClientGM()] was false, no event, on
    whatever element and of whatever type, reaches a handler that generates
    weather or saves anything shared: every dispatch completes, calls neither
    the generator nor a save of the weather, climate, humidity or biome, and
    leaves the weather in memory, the stored weather and those settings as
    they were.  Wiring itself leaves the world untouched. *)
Theorem player_page_is_local h h' w (selector event : string) target :
  isClientGM h = false ->
  let wired := activateListeners T h w in
  let r := dispatch T h' (bound (events wired) selector event) target
             (final wired) in
  final wired = w
  /\ outcome r = Normal tt
  /\ unshared w (final r) (events r).
Proof.
  intros Hplayer wired r.
  assert (Hfinal : final wired = w).
  { subst wired. now rewrite (activateListeners_player h w Hplayer). }
  split; [exact Hfinal|].
  subst r. rewrite Hfinal.
  apply dispatch_local.
  intros k Hin. subst wired. now apply (bound_player h w selector event).
Qed.

(** X18: the date display, the move handle and the panel toggle are wired
    for every client; the regeneration button and the biome, climate and
    humidity selects are wired exactly on the GM's client; nothing is ever
    wired to the season select. *)
Theorem activateListeners_bindings h w :
  let calls := events (activateListeners T h w) in
  bound calls "#date-display" "mousedown" = [ToggleAltFormat]
  /\ bound calls "#sweath-window-move-handle" "mousedown"
     = [OnMoveHandleMouseDown]
  /\ bound calls "#weather-toggle" "click" = [OnWeatherToggleClick]
  /\ bound calls "#sweath-weather-regenerate" "click"
     = (if isClientGM h then [OnWeatherRegenerateClick] else [])
  /\ bound calls "#biome-selection" "change"
     = (if isClientGM h then [OnBiomeSelectChange] else [])
  /\ bound calls "#climate-selection" "change"
     = (if isClientGM h then [OnClimateSelectChange] else [])
  /\ bound calls "#humidity-selection" "change"
     = (if isClientGM h then [OnHumiditySelectChange] else [])
  /\ (forall event, bound calls "#season-selection" event = []).
Proof.
  intros calls. subst calls.
  destruct (isClientGM h) eqn:Hrole.
  - rewrite (activateListeners_gm h w Hrole). cbn [events].
    repeat split.
  - rewrite (activateListeners_player h w Hrole). cbn [events].
    repeat split.
Qed.

(** X19: on the GM's client every wiring puts the saved climate and
    humidity back into the selects, so what a biome change assigned to them
    is gone after the next wiring: the two selects end up as if the biome had
    not been changed. *)
Theorem activateListeners_shows_saved h w target :
  isClientGM h = true ->
  let w1 := final (onBiomeSelectChange T h target w) in
  climate_select (page (final (activateListeners T h w1)))
    = climate_select (page (final (activateListeners T h w)))
  /\ humidity_select (page (final (activateListeners T h w1)))
     = humidity_select (page (final (activateListeners T h w)))
  /\ climate_select (page (final (activateListeners T h w)))
     = jq_val (option_map (String_of_Climate T) (saved_climate (settings w)))
         (climate_select (page w))
  /\ humidity_select (page (final (activateListeners T h w)))
     = jq_val (option_map (String_of_Humidity T)
                 (saved_humidity (settings w)))
         (humidity_select (page w)).
Proof.
  intros Hgm w1. rewrite !(activateListeners_gm h _ Hgm). cbn [final].
  assert (Hshow : forall w0,
    climate_select (page (show_saved_selections T w0))
      = jq_val (option_map (String_of_Climate T)
                  (saved_climate (settings w0)))
          (climate_select (page w0))
    /\ humidity_select (page (show_saved_selections T w0))
       = jq_val (option_map (String_of_Humidity T)
                   (saved_humidity (settings w0)))
           (humidity_select (page w0))) by (intros w0; now split).
  destruct (Hshow w) as [Hc Hh]. destruct (Hshow w1) as [Hc1 Hh1].
  rewrite Hc, Hh, Hc1, Hh1. clear Hshow Hc Hh Hc1 Hh1.
  assert (Hsame :
    saved_climate (settings w1) = saved_climate (settings w)
    /\ saved_humidity (settings w1) = saved_humidity (settings w)
    /\ (forall v, jq_val v (climate_select (page w1))
                  = jq_val v (climate_select (page w)))
    /\ (forall v, jq_val v (humidity_select (page w1))
                  = jq_val v (humidity_select (page w)))).
  { subst w1. destruct target as [value|]; [|now repeat split].
    destruct (biomeMappings T value) as [m|] eqn:Hm.
    - destruct (onBiomeSelectChange_known T h w value m Hm)
        as (_ & _ & _ & Hset & Hc & Hh & _).
      rewrite Hset, Hc, Hh.
      split; [now destruct (storeAccepts h)|].
      split; [now destruct (storeAccepts h)|].
      split; intros v.
      + now destruct (climate_select (page w)).
      + now destruct (humidity_select (page w)).
    - unfold onBiomeSelectChange. rewrite Hm. now repeat split. }
  destruct Hsame as (Hsc & Hsh & Hjc & Hjh).
  now rewrite Hsc, Hsh, Hjc, Hjh.
Qed.

End Wiring.

Lemma onBiomeSelectChange_effect_witness :
  let r := onBiomeSelectChange Demo.tables Demo.gm (Some "desert"%string)
             Demo.running in
  saved_biome (settings (final r)) = Some "desert"%string
  /\ saved_climate (settings (final r)) = Some 1%Z
  /\ option_map select_value (climate_select (page (final r)))
     = Some "2"%string
  /\ final (onBiomeSelectChange Demo.tables Demo.gm (Some "swamp"%string)
              Demo.running) = Demo.running.
Proof.
  destruct (@onBiomeSelectChange_effect Demo.ext Demo.tables Demo.gm
              Demo.running "desert"%string) as [_ Hknown].
  destruct (Hknown (@Build_BiomeMapping Demo.ext 2%Z 0%Z) eq_refl)
    as (_ & _ & Hbiome & Hclimate & _ & Hselect & _).
  destruct (@onBiomeSelectChange_effect Demo.ext Demo.tables Demo.gm
              Demo.running "swamp"%string) as [Hunknown _].
  cbv zeta. split; [|split; [|split]].
  - exact (Hbiome eq_refl).
  - exact Hclimate.
  - rewrite Hselect. reflexivity.
  - rewrite (Hunknown eq_refl). reflexivity.
Defined.

Lemma onBiomeSelectChange_then_regenerate_witness :
  let w1 := final (onBiomeSelectChange Demo.tables Demo.gm
                     (Some "desert"%string) Demo.running) in
  let r := in_app Demo.gm (@onWeatherRegenerateClick Demo.ext) w1 in
  option_map content (currentWeather (app (final r))) = Some "2-0-3"%string
  /\ saved_climate (settings (final r)) = Some 1%Z.
Proof.
  destruct (@onBiomeSelectChange_then_regenerate Demo.ext Demo.tables
              Demo.gm Demo.running "desert"%string
              (@Build_BiomeMapping Demo.ext 2%Z 0%Z)
              (Demo.select ["0"; "1"; "2"] "1")%string
              (Demo.select ["0"; "1"; "2"] "1")%string
              (Demo.select ["0"; "1"; "2"; "3"] "3")%string
              eq_refl eq_refl eq_refl eq_refl
              (or_intror (or_intror (or_introl eq_refl)))
              (or_introl eq_refl)
              eq_refl eq_refl)
    as (_ & Hheld & Hsaved & _).
  cbv zeta. split.
  - rewrite Hheld. reflexivity.
  - exact Hsaved.
Defined.

Lemma player_page_is_local_witness :
  let wired := activateListeners Demo.tables Demo.player Demo.running in
  let r := dispatch Demo.tables Demo.gm
             (bound (events wired) "#sweath-weather-regenerate" "click")
             None (final wired) in
  outcome r = Normal tt
  /\ unshared Demo.running (final r) (events r).
Proof.
  destruct (@player_page_is_local Demo.ext Demo.tables Demo.player Demo.gm
              Demo.running "#sweath-weather-regenerate"%string
              "click"%string None eq_refl) as (_ & Hdone & Hlocal).
  exact (conj Hdone Hlocal).
Defined.

Lemma activateListeners_shows_saved_witness :
  let w1 := final (onBiomeSelectChange Demo.tables Demo.gm
                     (Some "desert"%string) Demo.running) in
  option_map select_value (climate_select (page w1)) = Some "2"%string
  /\ option_map select_value
       (climate_select
          (page (final (activateListeners Demo.tables Demo.gm w1))))
     = Some "1"%string.
Proof.
  destruct (@activateListeners_shows_saved Demo.ext Demo.tables Demo.gm
              Demo.running (Some "desert"%string) eq_refl)
    as (Hclimate & _).
  cbv zeta. split; [reflexivity|].
  rewrite Hclimate. reflexivity.
Defined.
